(** * bvzfilesystemlib: a shallow embedding and its properties

    The module under study is [src/bvzfilesystemlib.py], a flat library of
    filesystem helpers.  The embedding has four layers:

    - [Py]: the few Python values and exceptions the functions discriminate
      on, and a small error monad;
    - [PosixPath]: the purely textual part of [os.path] ([join], [dirname],
      [split]) together with [str.lstrip], [str.rstrip], [str.split];
    - [os_state]: the observations a function can make of the host
      filesystem, with [FakeFS], an in-memory tree that implements them;
    - the functions of the module themselves, one definition per [def]. *)

From Stdlib Require Import List ZArith Lia Bool Ascii String Permutation.
Import ListNotations.

Local Open Scope string_scope.
Local Open Scope list_scope.

(* ====================================================================== *)
(** ** Python values, exceptions and results *)

Module Py.

(** The exceptions that the modelled code can raise.  The specification
    calls a failed [assert] an [InvalidArgument] error. *)
Inductive exn : Type :=
| AssertionError
| TypeError
| IndexError
| OSError.

Inductive result (A : Type) : Type :=
| Ok (a : A)
| Raise (e : exn).
Arguments Ok {A} a.
Arguments Raise {A} e.

Definition bind {A B : Type} (m : result A) (k : A -> result B) : result B :=
  match m with
  | Ok a => k a
  | Raise e => Raise e
  end.

(** [assert c] followed by the rest of the body. *)
Definition assert {A : Type} (c : bool) (k : result A) : result A :=
  if c then k else Raise AssertionError.

(** Arguments whose dynamic type the code inspects.  Lists are lists of
    strings, the only lists the module is documented to accept. *)
Inductive value : Type :=
| VNone
| VInt (z : Z)
| VStr (s : string)
| VList (l : list string).

Definition is_str (v : value) : bool :=
  match v with VStr _ => true | _ => false end.

Definition is_list (v : value) : bool :=
  match v with VList _ => true | _ => false end.


(** [list(s)] for a string: its characters, each a one-character string. *)
Fixpoint chars (s : string) : list string :=
  match s with
  | EmptyString => []
  | String c t => String c EmptyString :: chars t
  end.

Definition is_none (v : value) : bool :=
  match v with VNone => true | _ => false end.

Definition is_int (v : value) : bool :=
  match v with VInt _ => true | _ => false end.

(** [list(v)]: a copy of a list, the characters of a string, and a
    [TypeError] for values that are not iterable. *)
Definition list_of (v : value) : result (list string) :=
  match v with
  | VList l => Ok l
  | VStr s => Ok (chars s)
  | VNone | VInt _ => Raise TypeError
  end.

(** [l[0]]. *)
Definition item0 {A : Type} (l : list A) : result A :=
  match l with
  | x :: _ => Ok x
  | [] => Raise IndexError
  end.

End Py.
Export Py.

Notation "x <- m ;; k" := (bind m (fun x => k))
  (at level 61, m at next level, right associativity).

(* ====================================================================== *)
(** ** Text operations: [str] methods and [posixpath] *)

Module PosixPath.

Definition sep : ascii := "/"%char.

Definition is_sep (c : ascii) : bool := Ascii.eqb c sep.

(** [s.lstrip(sep)] *)
Fixpoint lstrip (s : string) : string :=
  match s with
  | EmptyString => EmptyString
  | String c t => if is_sep c then lstrip t else s
  end.

(** [s.rstrip(sep)] *)
Fixpoint rstrip (s : string) : string :=
  match s with
  | EmptyString => EmptyString
  | String c t =>
      match rstrip t with
      | EmptyString => if is_sep c then EmptyString else String c EmptyString
      | r => String c r
      end
  end.

(** [s.split(sep)]: one more segment than there are separators, so the
    result is never empty. *)
Fixpoint str_split (s : string) : list string :=
  match s with
  | EmptyString => [EmptyString]
  | String c t =>
      if is_sep c then EmptyString :: str_split t
      else match str_split t with
           | h :: r => String c h :: r
           | [] => [String c EmptyString]
           end
  end.

Definition startswith_sep (s : string) : bool :=
  match s with
  | String c _ => is_sep c
  | EmptyString => false
  end.

Fixpoint endswith_sep (s : string) : bool :=
  match s with
  | EmptyString => false
  | String c EmptyString => is_sep c
  | String _ t => endswith_sep t
  end.

Definition is_empty (s : string) : bool :=
  match s with EmptyString => true | _ => false end.

(** One step of the loop of [posixpath.join]. *)
Definition join2 (path b : string) : string :=
  if startswith_sep b then b
  else if is_empty path || endswith_sep path then path ++ b
  else path ++ String sep b.

(** [os.path.join(a, *p)] *)
Definition join (a : string) (p : list string) : string :=
  fold_left join2 p a.

(** [os.path.join] applied to an unpacked list of segments: the first
    positional argument is required. *)
Definition join_star (segs : list string) : result string :=
  match segs with
  | [] => Raise TypeError
  | a :: p => Ok (join a p)
  end.

(** [p[:p.rfind(sep) + 1]] *)
Fixpoint head_part (p : string) : string :=
  match p with
  | EmptyString => EmptyString
  | String c t =>
      match head_part t with
      | EmptyString => if is_sep c then String c EmptyString else EmptyString
      | r => String c r
      end
  end.

(** [p[p.rfind(sep) + 1:]] *)
Fixpoint tail_part (p : string) : string :=
  match p with
  | EmptyString => EmptyString
  | String c t =>
      match head_part t with
      | EmptyString => if is_sep c then t else p
      | _ => tail_part t
      end
  end.

(** [head != sep * len(head)] *)
Fixpoint all_sep (s : string) : bool :=
  match s with
  | EmptyString => true
  | String c t => is_sep c && all_sep t
  end.

Definition strip_head (head : string) : string :=
  if negb (is_empty head) && negb (all_sep head) then rstrip head else head.

(** [os.path.dirname] *)
Definition dirname (p : string) : string := strip_head (head_part p).

(** [os.path.split] *)
Definition split (p : string) : string * string :=
  (strip_head (head_part p), tail_part p).

(** [s.startswith(prefix)] *)
Definition startswith (s pre : string) : bool := String.prefix pre s.

End PosixPath.
Export PosixPath.

(* ====================================================================== *)
(** ** The host filesystem as seen by the module *)

(** Every function of the module observes the filesystem through the calls
    below and through nothing else.  A value of [os_state] is one state of
    the host: what each call answers in that state. *)
Record os_state : Type := {
  os_exists : string -> bool;                 (* os.path.exists *)
  os_isdir : string -> bool;                  (* os.path.isdir *)
  os_islink : string -> bool;                 (* os.path.islink *)
  os_realpath : string -> string;             (* os.path.realpath *)
  os_listdir : string -> result (list string);  (* os.listdir *)
  os_getsize : string -> result Z;            (* os.path.getsize *)
  os_walk : string -> list (string * list string * list string);  (* os.walk *)
  os_dir_mode : string -> option Z            (* permission bits of a directory *)
}.

(** An in-memory filesystem: a tree of files, directories and symbolic
    links, and a working directory.  It implements [os_state] and serves as
    the test double on which concrete runs are evaluated.  Trailing
    separators and a link with an empty target are not given the errors a
    real host reports for them. *)
Module FakeFS.

Local Unset Elimination Schemes.
Inductive node : Type :=
| File (size : Z)
| Dir (mode size : Z) (entries : list (string * node))
| Symlink (target : string).
Local Set Elimination Schemes.

Record filesystem : Type := { root : node; cwd : list string }.

Fixpoint assoc (name : string) (es : list (string * node)) : option node :=
  match es with
  | [] => None
  | (n, x) :: r => if String.eqb n name then Some x else assoc name r
  end.

(** Walks down from [n] through directories only; links are not followed. *)
Fixpoint descend (n : node) (comps : list string) : option node :=
  match comps with
  | [] => Some n
  | c :: rest =>
      match n with
      | Dir _ _ es =>
          match assoc c es with
          | Some child => descend child rest
          | None => None
          end
      | _ => None
      end
  end.

Definition components (p : string) : list string :=
  filter (fun c => negb (is_empty c) && negb (String.eqb c ".")) (str_split p).

Definition origin (fs : filesystem) (p : string) : list string :=
  if startswith_sep p then [] else cwd fs.

Definition is_nil {A : Type} (l : list A) : bool :=
  match l with [] => true | _ => false end.

(** Name resolution as the kernel does it: [stack] is the real location
    reached so far, [todo] the components still to be looked up.  [None]
    is a missing entry or too many levels of links. *)
Fixpoint resolve (fuel : nat) (r : node) (follow_last : bool)
         (stack todo : list string) : option (list string) :=
  match fuel with
  | O => None
  | S fuel' =>
      match todo with
      | [] => Some stack
      | c :: rest =>
          if String.eqb c ".." then
            resolve fuel' r follow_last (removelast stack) rest
          else
            match descend r (stack ++ [c]) with
            | None => None
            | Some (Symlink t) =>
                if is_nil rest && negb follow_last then Some (stack ++ [c])
                else resolve fuel' r follow_last
                       (if startswith_sep t then [] else stack)
                       (components t ++ rest)
            | Some _ => resolve fuel' r follow_last (stack ++ [c]) rest
            end
      end
  end.

Definition max_steps : nat := 256.

Definition lookup (follow_last : bool) (fs : filesystem) (p : string)
  : option node :=
  if is_empty p then None
  else match resolve max_steps (root fs) follow_last (origin fs p) (components p) with
       | Some real => descend (root fs) real
       | None => None
       end.

Definition stat := lookup true.
Definition lstat := lookup false.

(** [os.path.realpath] without [strict]: missing components are kept as
    they are written. *)
Fixpoint real_components (fuel : nat) (r : node) (stack todo : list string)
  : list string :=
  match fuel with
  | O => stack ++ todo
  | S fuel' =>
      match todo with
      | [] => stack
      | c :: rest =>
          if String.eqb c ".." then
            real_components fuel' r (removelast stack) rest
          else
            match descend r (stack ++ [c]) with
            | Some (Symlink t) =>
                real_components fuel' r
                  (if startswith_sep t then [] else stack)
                  (components t ++ rest)
            | _ => real_components fuel' r (stack ++ [c]) rest
            end
      end
  end.

Definition render (comps : list string) : string :=
  String sep (String.concat (String sep EmptyString) comps).

Definition realpath (fs : filesystem) (p : string) : string :=
  render (real_components max_steps (root fs) (origin fs p) (components p)).

Definition exists_ (fs : filesystem) (p : string) : bool :=
  match stat fs p with Some _ => true | None => false end.

Definition isdir (fs : filesystem) (p : string) : bool :=
  match stat fs p with Some (Dir _ _ _) => true | _ => false end.

Definition islink (fs : filesystem) (p : string) : bool :=
  match lstat fs p with Some (Symlink _) => true | _ => false end.

Definition listdir (fs : filesystem) (p : string) : result (list string) :=
  match stat fs p with
  | Some (Dir _ _ es) => Ok (map fst es)
  | _ => Raise OSError
  end.

Definition getsize (fs : filesystem) (p : string) : result Z :=
  match stat fs p with
  | Some (File size) => Ok size
  | Some (Dir _ size _) => Ok size
  | _ => Raise OSError
  end.

Definition dir_mode (fs : filesystem) (p : string) : option Z :=
  match stat fs p with
  | Some (Dir mode _ _) => Some mode
  | _ => None
  end.

(** [os.walk], top-down, links to directories listed but not entered. *)
Fixpoint walk_node (is_dir : string -> bool) (top : string) (n : node)
  : list (string * list string * list string) :=
  match n with
  | Dir _ _ es =>
      let names := map fst es in
      (top,
       filter (fun x => is_dir (join2 top x)) names,
       filter (fun x => negb (is_dir (join2 top x))) names)
      :: flat_map
           (fun e =>
              match e with
              | (name, child) =>
                  match child with
                  | Dir _ _ _ => walk_node is_dir (join2 top name) child
                  | _ => []
                  end
              end) es
  | _ => []
  end.

Definition walk (fs : filesystem) (top : string)
  : list (string * list string * list string) :=
  match stat fs top with
  | Some n => walk_node (isdir fs) top n
  | None => []
  end.

Definition os_of (fs : filesystem) : os_state :=
  {| os_exists := exists_ fs;
     os_isdir := isdir fs;
     os_islink := islink fs;
     os_realpath := realpath fs;
     os_listdir := listdir fs;
     os_getsize := getsize fs;
     os_walk := walk fs;
     os_dir_mode := dir_mode fs |}.

End FakeFS.

(* ====================================================================== *)
(** ** The functions of [bvzfilesystemlib] *)

Section Library.

Variable os : os_state.

(** [count_files_recursively] *)
Definition count_files_recursively (dir_d : string) : result nat :=
  assert (os_exists os dir_d)
    (assert (os_isdir os dir_d)
       (Ok (list_sum (map (fun t => List.length (snd t)) (os_walk os dir_d))))).

(** [convert_unix_path_to_os_path] *)
Definition convert_unix_path_to_os_path (path : value) : result string :=
  match path with
  | VStr s => join_star (str_split (lstrip s))
  | _ => Raise AssertionError
  end.

(** [symlinks_to_real_paths]: anything that is not a list goes through
    [list(...)] before the loop. *)
Definition symlinks_to_real_paths (symlinks_p : value) : result (list string) :=
  symlinks_p <- (match symlinks_p with
                 | VList l => Ok l
                 | other => list_of other
                 end) ;;
  Ok (map (os_realpath os) symlinks_p).

(** [recursively_list_files_in_dirs] *)
Definition recursively_list_files_in_dirs (source_dirs_d : value)
  : result (list string) :=
  assert (is_list source_dirs_d || is_str source_dirs_d)
    (let source_dirs_d :=
       match source_dirs_d with
       | VStr s => [s]
       | VList l => l
       | _ => []
       end in
     assert (forallb (os_exists os) source_dirs_d)
       (Ok (flat_map
              (fun source_dir_d =>
                 flat_map
                   (fun t =>
                      match t with
                      | (dir_d, sub_dirs_n, files_n) =>
                          map (fun file_n => join dir_d [dir_d; file_n]) files_n
                      end)
                   (os_walk os source_dir_d))
              source_dirs_d))).

(** A [dict] from sizes to lists of paths, in insertion order. *)
Definition size_dict : Type := list (Z * list string).

Fixpoint dict_get (k : Z) (d : size_dict) : option (list string) :=
  match d with
  | [] => None
  | (k', v) :: r => if (k' =? k)%Z then Some v else dict_get k r
  end.

(** [d[k] = v]: an existing key keeps its position, a new key goes last. *)
Fixpoint dict_set (k : Z) (v : list string) (d : size_dict) : size_dict :=
  match d with
  | [] => [(k, v)]
  | (k', v') :: r =>
      if (k' =? k)%Z then (k', v) :: r else (k', v') :: dict_set k v r
  end.

(** The body of the [for] loop of [dir_files_keyed_by_size]. *)
Fixpoint bucket_files (path_d : string) (files_n : list string)
         (output : size_dict) : result size_dict :=
  match files_n with
  | [] => Ok output
  | file_n :: rest =>
      let file_p := join path_d [file_n] in
      file_size <- os_getsize os file_p ;;
      match dict_get file_size output with
      | None => bucket_files path_d rest (dict_set file_size [file_p] output)
      | Some existing_files =>
          bucket_files path_d rest
            (dict_set file_size (existing_files ++ [file_p]) output)
      end
  end.

(** [dir_files_keyed_by_size] *)
Definition dir_files_keyed_by_size (path_d : string) : result size_dict :=
  assert (os_exists os path_d)
    (files_n <- os_listdir os path_d ;;
     bucket_files path_d files_n []).

(** What a run of [ancestor_contains_file] returns, together with the
    directories it looked into, in the order it looked into them. *)
Record search : Type := { found : option string; examined : list string }.

Definition looked_into (test_p : string) (s : search) : search :=
  {| found := found s; examined := test_p :: examined s |}.

(** The [for file_n in files_n] loop: does [test_p] hold one of the
    marker names? *)
Definition contains_any (test_p : string) (files_n : list string) : bool :=
  existsb (fun file_n => os_exists os (join test_p [file_n])) files_n.

(** [depth and count >= depth] *)
Definition depth_reached (depth : option Z) (count : Z) : bool :=
  match depth with
  | Some d => negb (d =? 0)%Z && (count >=? d)%Z
  | None => false
  end.

(** The [while True] loop of [ancestor_contains_file]; one unit of [fuel]
    per iteration, [None] when it runs out. *)
Fixpoint climb (fuel : nat) (files_n : list string) (depth : option Z)
         (test_p : string) (count : Z) (already_at_root : bool)
  : option search :=
  match fuel with
  | O => None
  | S fuel' =>
      if contains_any test_p files_n
      then Some {| found := Some test_p; examined := [test_p] |}
      else
        let here := test_p in
        let test_p := dirname test_p in
        let count := (count + 1)%Z in
        if depth_reached depth count
        then Some {| found := None; examined := [here] |}
        else if String.eqb (dirname test_p) test_p then
               if already_at_root
               then Some {| found := None; examined := [here] |}
               else option_map (looked_into here)
                      (climb fuel' files_n depth test_p count true)
             else option_map (looked_into here)
                    (climb fuel' files_n depth test_p count already_at_root)
  end.

(** [if type(files_n) != list: files_n = [files_n]], for an argument that
    passed the assertion on its type. *)
Definition marker_names (files_n : value) : list string :=
  match files_n with
  | VList l => l
  | VStr s => [s]
  | _ => []
  end.

(** The [depth] argument once it is known to be [None] or an [int]. *)
Definition depth_limit (depth : value) : option Z :=
  match depth with
  | VInt z => Some z
  | _ => None
  end.

(** The statements of [ancestor_contains_file] before the loop: the
    assertions, and the values of [files_n], [depth] and [test_p] with
    which the loop is entered. *)
Definition ancestor_start (path_p : string) (files_n : value) (depth : value)
  : result (list string * option Z * string) :=
  assert (is_none depth || is_int depth)
    (assert (os_exists os path_p)
       (assert (os_isdir os path_p)
          (assert (is_str files_n || is_list files_n)
             (let files_n := marker_names files_n in
              let depth := depth_limit depth in
              let path_p := rstrip path_p in
              let path_p :=
                if negb (os_isdir os path_p) then dirname path_p else path_p in
              Ok (files_n, depth, dirname path_p))))).

Definition ancestor_contains_file_fuel (fuel : nat) (path_p : string)
           (files_n : value) (depth : value) : option (result search) :=
  match ancestor_start path_p files_n depth with
  | Raise e => Some (Raise e)
  | Ok (files_n, depth, test_p) =>
      option_map Ok (climb fuel files_n depth test_p 0%Z false)
  end.

(** [ancestor_contains_file]: the loop never needs more iterations than
    the starting path has characters, plus two (see [climb_terminates]). *)
Definition ancestor_contains_file (path_p : string) (files_n : value)
           (depth : value) : option (result search) :=
  ancestor_contains_file_fuel (String.length path_p + 2) path_p files_n depth.

(** [lock_dir]: the state of the host after the call is returned next to
    the result. *)
Definition lock_dir (path_d : string) : result unit * os_state :=
  (assert (os_exists os path_d) (assert (os_isdir os path_d) (Ok tt)), os).

(** [symlink_source_is_in_dir] *)
Definition symlink_source_is_in_dir (link_p path_d : string)
           (include_subdirs : bool) : result bool :=
  assert (os_islink os link_p)
    (real_paths <- symlinks_to_real_paths (VStr link_p) ;;
     real_p <- item0 real_paths ;;
     let (source_d, source_n) := split real_p in
     if include_subdirs then Ok (startswith source_d path_d)
     else Ok (String.eqb source_d path_d)).

End Library.

(* ====================================================================== *)
(** ** A concrete host *)

Module Host.
Import FakeFS.

Definition d755 : Z := 493.   (* 0o755 *)
Definition dsz : Z := 4096.

Definition tree : node :=
  Dir d755 dsz
    [ ("data", Dir d755 dsz [ ("x", Dir d755 dsz [ ("y", File 12) ]) ]);
      ("data2", Dir d755 dsz [ ("x", File 3) ]);
      ("links", Dir d755 dsz
         [ ("l", Symlink "/data/x/y");
           ("l2", Symlink "/data2/x");
           ("hop", Symlink "l") ]);
      ("d", Dir d755 dsz
         [ ("a", File 10);
           ("b", File 10);
           ("s", Dir d755 dsz [ ("c", File 10) ]);
           ("e", File 20) ]);
      ("a", Dir d755 dsz []);
      ("w", Dir d755 dsz
         [ (".marker", File 0);
           ("p", Dir d755 dsz [ ("q", Dir d755 dsz [ ("n", File 1) ]) ]) ]);
      ("home", Dir d755 dsz
         [ ("u", Dir d755 dsz
              [ ("proj", Dir d755 dsz
                   [ ("f.txt", File 5);
                     ("sub", Dir d755 dsz [ ("g.txt", File 7) ]) ]) ]) ]) ]%Z.

Definition fs : filesystem := {| root := tree; cwd := ["home"; "u"] |}.

Definition host : os_state := os_of fs.

End Host.
Import Host.

(* ====================================================================== *)
(** ** Vocabulary of the statements *)

Definition fails {A : Type} (r : result A) : Prop := exists e, r = Raise e.

Definition is_prefix (a b : string) : Prop := exists t, b = (a ++ t)%string.

(** The test of line 227: a path is at the top when its parent is itself. *)
Definition is_root (p : string) : bool := String.eqb (dirname p) p.


(** The directory in which [ancestor_contains_file] starts to look. *)
Definition first_ancestor (os : os_state) (path_p : string) : string :=
  let path_p := rstrip path_p in
  dirname (if negb (os_isdir os path_p) then dirname path_p else path_p).

(** All the paths held by a size dictionary, bucket after bucket. *)
Definition flatten (d : size_dict) : list string := List.concat (map snd d).

Definition has_size (os : os_state) (k : Z) (p : string) : bool :=
  match os_getsize os p with
  | Ok z => (z =? k)%Z
  | Raise _ => false
  end.

(** The bucket that a list of paths fills for size [k], if any. *)
Definition bucket_of (os : os_state) (k : Z) (paths : list string)
  : option (list string) :=
  match filter (has_size os k) paths with
  | [] => None
  | l => Some l
  end.

(** The paths of the immediate entries [names] of [path_d]. *)
Definition entry_paths (path_d : string) (names : list string) : list string :=
  map (fun file_n => join path_d [file_n]) names.

(* ====================================================================== *)
(** ** [invert_dir_list] *)

Section InvertDirList.

Variable os : os_state.

(** [re.match(pattern, s)] read as a truth value.  The regular-expression
    engine is not part of the module: it is a parameter, and an error it
    raises (a pattern that does not compile) is passed on. *)
Variable re_match : string -> string -> result bool.

(** [item_n in subdirs_n] *)
Definition name_in (item_n : string) (subdirs_n : list string) : bool :=
  existsb (String.eqb item_n) subdirs_n.

(** [if pattern:] for a pattern that is [None] or a string. *)
Definition pattern_given (pattern : value) : option string :=
  match pattern with
  | VStr EmptyString => None
  | VStr p => Some p
  | _ => None
  end.

(** The [for item_n in items_n] loop of [invert_dir_list]. *)
Fixpoint invert_loop (parent_d : string) (subdirs_n : list string)
         (pattern : value) (items_n : list string) (output : list string)
  : result (list string) :=
  match items_n with
  | [] => Ok output
  | item_n :: rest =>
      if os_isdir os (join parent_d [item_n]) then
        if negb (name_in item_n subdirs_n) then
          matched <- (match pattern_given pattern with
                      | Some p => re_match p item_n
                      | None => Ok true
                      end) ;;
          if (matched : bool)
          then invert_loop parent_d subdirs_n pattern rest (output ++ [item_n])
          else invert_loop parent_d subdirs_n pattern rest output
        else invert_loop parent_d subdirs_n pattern rest output
      else invert_loop parent_d subdirs_n pattern rest output
  end.

(** [invert_dir_list] *)
Definition invert_dir_list (parent_d : string) (subdirs_n : value)
           (pattern : value) : result (list string) :=
  assert (os_exists os parent_d)
    (assert (os_isdir os parent_d)
       (assert (is_list subdirs_n)
          (assert (is_none pattern || is_str pattern)
             (items_n <- os_listdir os parent_d ;;
              invert_loop parent_d (marker_names subdirs_n) pattern
                items_n [])))).

End InvertDirList.

(** [re.match] for patterns without metacharacters: the pattern has to be
    a prefix of the name. *)
Definition literal_match (pattern s : string) : result bool :=
  Ok (String.prefix pattern s).

(* ====================================================================== *)
(** ** A second host *)

Module Studio.
Import FakeFS.

Definition tree : node :=
  Dir 493 4096
    [ ("shots", Dir 493 4096
         [ ("sh010", Dir 493 4096 [ ("plate.exr", File 40) ]);
           ("notes.txt", File 9);
           ("sh020", Dir 493 4096 []);
           ("old_sh005", Dir 493 4096 []);
           ("latest", Symlink "sh020") ]);
      ("cache", Dir 493 4096
         [ ("a.bin", File 3);
           ("dangling", Symlink "/nowhere");
           ("b.bin", File 3) ]);
      ("empty", Dir 493 4096 []) ]%Z.

Definition fs : filesystem := {| root := tree; cwd := [] |}.

Definition studio : os_state := os_of fs.

End Studio.
Import Studio.

(* ====================================================================== *)
(** ** Vocabulary of the further statements *)

(** Runs of separators reduced to one separator each. *)
Fixpoint squeeze (s : string) : string :=
  match s with
  | EmptyString => EmptyString
  | String c t =>
      if is_sep c && startswith_sep t then squeeze t else String c (squeeze t)
  end.

(** A path with one separator at its end, unless it is empty. *)
Definition ensure_sep (path : string) : string :=
  if is_empty path || endswith_sep path then path
  else (path ++ String sep EmptyString)%string.

Fixpoint no_sep (s : string) : bool :=
  match s with
  | EmptyString => true
  | String c t => negb (is_sep c) && no_sep t
  end.

(** The four assertions of [ancestor_contains_file]. *)
Definition ancestor_preconditions (os : os_state) (path_p : string)
           (files_n depth : value) : bool :=
  (is_none depth || is_int depth)
  && os_exists os path_p
  && os_isdir os path_p
  && (is_str files_n || is_list files_n).

(** The files that a walk reports, each joined once to its directory. *)
Definition walked_files (os : os_state) (source_dir_d : string) : list string :=
  flat_map (fun t => map (fun file_n => join (fst (fst t)) [file_n]) (snd t))
    (os_walk os source_dir_d).

(** Every directory that a walk reports has an absolute path. *)
Definition walk_is_absolute (os : os_state) (source_dir_d : string) : Prop :=
  forall t, In t (os_walk os source_dir_d) -> startswith_sep (fst (fst t)) = true.

(** The test that [invert_dir_list] applies to a name when no pattern is
    in force. *)
Definition inverted (os : os_state) (parent_d : string)
           (subdirs_n : list string) (item_n : string) : bool :=
  os_isdir os (join parent_d [item_n]) && negb (name_in item_n subdirs_n).

(* ====================================================================== *)
(** ** Paths written in full, and the search they call for *)

(** The name of a directory entry: not empty, without a separator, and
    neither of the two names that every directory holds. *)
Definition is_name (c : string) : bool :=
  no_sep c && negb (is_empty c)
  && negb (String.eqb c ".") && negb (String.eqb c "..").

(** The path of the entry [name] of the directory [parent]. *)
Definition under (parent name : string) : string :=
  if String.eqb parent "/" then String sep name
  else (parent ++ String sep name)%string.

(** A directory path to which a name can be appended that way: the root,
    or a path that is not empty and does not end with a separator. *)
Definition is_parent (d : string) : bool :=
  String.eqb d "/" || (negb (is_empty d) && negb (endswith_sep d)).

(** The absolute path with the components [comps], outermost first. *)
Definition abs_path (comps : list string) : string := fold_left under comps "/".

(** The ancestors of the absolute path whose components, innermost first,
    are [rcomps]: nearest first, down to the root. *)
Fixpoint ancestors_rev (rcomps : list string) : list string :=
  match rcomps with
  | [] => []
  | _ :: rest => abs_path (rev rest) :: ancestors_rev rest
  end.

Definition ancestors_of (comps : list string) : list string :=
  ancestors_rev (rev comps).

(** Does the directory [d] hold an entry named by one of [ms]? *)
Definition holds_marker (os : os_state) (ms : list string) (d : string) : bool :=
  existsb (fun m => os_exists os (under d m)) ms.

(** The search that is called for: go through [dirs] in order, stop at the
    first directory that passes the test. *)
Fixpoint nearest (has : string -> bool) (dirs : list string) : search :=
  match dirs with
  | [] => {| found := None; examined := [] |}
  | d :: rest =>
      if has d then {| found := Some d; examined := [d] |}
      else looked_into d (nearest has rest)
  end.

(** The names that a [files_n] argument stands for. *)
Definition names_of (files_n : value) : option (list string) :=
  match files_n with
  | VList l => Some l
  | VStr s => Some [s]
  | _ => None
  end.

(** How many ancestors a [depth] argument lets the search reach: no limit
    for [None] and 0, one for a negative depth. *)
Definition levels (depth : value) : option nat :=
  match depth with
  | VInt z => if (z =? 0)%Z then None else Some (Z.to_nat (Z.max 1 z))
  | _ => None
  end.

Definition cut {A : Type} (k : option nat) (l : list A) : list A :=
  match k with
  | Some n => firstn n l
  | None => l
  end.

(** The levels left to a run of the loop that has counted to [count]. *)
Definition levels_left (depth : option Z) (count : Z) : option nat :=
  match depth with
  | Some d =>
      if (d =? 0)%Z then None else Some (Z.to_nat (Z.max 1 (d - count)))
  | None => None
  end.

(* ====================================================================== *)
(** ** Properties *)

Example dirname_nested : dirname "/a/b/c" = "/a/b". Proof. reflexivity. Qed.
Example dirname_child_of_root : dirname "/a" = "/". Proof. reflexivity. Qed.
Example dirname_root : dirname "/" = "/". Proof. reflexivity. Qed.
Example dirname_relative : dirname "a" = "". Proof. reflexivity. Qed.
Example dirname_double_slash : dirname "//a" = "//". Proof. reflexivity. Qed.
Example dirname_trailing : dirname "/a/b/" = "/a/b". Proof. reflexivity. Qed.
Example split_file : split "/data/x/y" = ("/data/x", "y"). Proof. reflexivity. Qed.
Example split_root : split "/" = ("/", ""). Proof. reflexivity. Qed.
Example split_plain : split "l" = ("", "l"). Proof. reflexivity. Qed.
Example join_abs_twice : join "/a/b" ["/a/b"; "f"] = "/a/b/f". Proof. reflexivity. Qed.
Example join_rel_twice : join "a/b" ["a/b"; "f"] = "a/b/a/b/f". Proof. reflexivity. Qed.
Example join_empty_head : join2 "" "m" = "m". Proof. reflexivity. Qed.
Example join_root : join2 "/" "m" = "/m". Proof. reflexivity. Qed.
Example str_split_abc : str_split "a/b//c" = ["a"; "b"; ""; "c"]. Proof. reflexivity. Qed.
Example str_split_empty : str_split "" = [""]. Proof. reflexivity. Qed.
Example rstrip_root : rstrip "/" = "". Proof. reflexivity. Qed.
Example rstrip_dir : rstrip "/a/b//" = "/a/b". Proof. reflexivity. Qed.

(** *** Results and failures *)

Lemma ok_does_not_fail {A : Type} (a : A) : ~ fails (Ok a).
Proof. intros [e He]. discriminate He. Qed.

(** *** [convert_unix_path_to_os_path] *)

Lemma str_split_nonempty (s : string) : str_split s <> [].
Proof.
  destruct s as [|c t]; simpl.
  - discriminate.
  - destruct (is_sep c); [discriminate|].
    destruct (str_split t); discriminate.
Qed.

Lemma convert_str_returns (s : string) :
  exists r, convert_unix_path_to_os_path (VStr s) = Ok r.
Proof.
  unfold convert_unix_path_to_os_path, join_star.
  destruct (str_split (lstrip s)) as [|a p] eqn:E.
  - exfalso. apply (str_split_nonempty _ E).
  - eexists. reflexivity.
Qed.

(** C9, as stated, fails on the path ["/"]: nothing is left once the
    leading separators are stripped, and the conversion returns the empty
    string instead of failing. *)
Lemma convert_unix_path_empty_counterexample :
  lstrip "/" = "" /\ ~ fails (convert_unix_path_to_os_path (VStr "/")).
Proof.
  split; [reflexivity|].
  change (convert_unix_path_to_os_path (VStr "/")) with (@Ok string "").
  apply ok_does_not_fail.
Qed.

(** C9, amended: [convert_unix_path_to_os_path] fails with an assertion
    error (the specification's InvalidArgument) when its input is not a
    string; on every string it returns, and when nothing is left after the
    leading separators are stripped it returns the empty string, because
    splitting the empty string yields one empty segment, not zero. *)
Theorem convert_unix_path_failures (v : value) :
  (is_str v = false -> convert_unix_path_to_os_path v = Raise AssertionError)
  /\ (forall s, v = VStr s ->
        ~ fails (convert_unix_path_to_os_path v)
        /\ (lstrip s = "" -> convert_unix_path_to_os_path v = Ok "")).
Proof.
  split.
  - destruct v; simpl; intros H; try reflexivity; discriminate H.
  - intros s ->. split.
    + destruct (convert_str_returns s) as [r Hr]. rewrite Hr.
      apply ok_does_not_fail.
    + intros Hs. unfold convert_unix_path_to_os_path. rewrite Hs. reflexivity.
Qed.

Lemma convert_unix_path_failures_witness :
  convert_unix_path_to_os_path (VInt 3) = Raise AssertionError
  /\ convert_unix_path_to_os_path (VStr "///") = Ok "".
Proof.
  split.
  - apply (proj1 (convert_unix_path_failures (VInt 3))). reflexivity.
  - apply (proj2 (convert_unix_path_failures (VStr "///")) "///" eq_refl).
    reflexivity.
Defined.

(** *** [symlinks_to_real_paths] and [symlink_source_is_in_dir] *)

Lemma chars_length (s : string) : List.length (chars s) = String.length s.
Proof. induction s as [|c t IH]; simpl; [reflexivity | now rewrite IH]. Qed.

(** A string argument is resolved one character at a time. *)
Lemma symlinks_to_real_paths_str (os : os_state) (s : string) :
  symlinks_to_real_paths os (VStr s) = Ok (map (os_realpath os) (chars s)).
Proof. reflexivity. Qed.

Lemma symlinks_to_real_paths_str_length (os : os_state) (s : string) :
  exists l, symlinks_to_real_paths os (VStr s) = Ok l
            /\ List.length l = String.length s.
Proof.
  eexists. split; [apply symlinks_to_real_paths_str|].
  now rewrite length_map, chars_length.
Qed.

Lemma symlinks_to_real_paths_list (os : os_state) (l : list string) :
  symlinks_to_real_paths os (VList l) = Ok (map (os_realpath os) l).
Proof. reflexivity. Qed.

(** The containment test only ever sees the real path of the first
    character of the link's own path. *)
Lemma symlink_source_first_character (os : os_state) (c : ascii)
      (rest path_d : string) (include_subdirs : bool) :
  os_islink os (String c rest) = true ->
  symlink_source_is_in_dir os (String c rest) path_d include_subdirs =
  let source_d := fst (split (os_realpath os (String c ""))) in
  Ok (if include_subdirs then startswith source_d path_d
      else String.eqb source_d path_d).
Proof.
  intros H. unfold symlink_source_is_in_dir. rewrite H. simpl.
  destruct include_subdirs; reflexivity.
Qed.

(** C1 at the input [link_p = "/links/l"], [path_d = "/data"] on [host]:
    the path is a symbolic link whose real target is ["/data/x/y"], inside
    ["/data"], and [symlink_source_is_in_dir] answers [False]. *)
Theorem symlink_source_is_in_dir_misses_target :
  os_islink host "/links/l" = true
  /\ os_realpath host "/links/l" = "/data/x/y"
  /\ fst (split "/data/x/y") = "/data/x"
  /\ startswith "/data/x" "/data" = true
  /\ symlink_source_is_in_dir host "/links/l" "/data" true = Ok false.
Proof. repeat split; vm_compute; reflexivity. Qed.

(** C2 at the input ["/links/l"] on [host]: the single string is taken
    apart by [list(...)] and the result has one entry per character, none of
    them the real path ["/data/x/y"] of the link. *)
Theorem symlinks_to_real_paths_splits_string :
  os_realpath host "/links/l" = "/data/x/y"
  /\ symlinks_to_real_paths host (VStr "/links/l") =
     Ok ["/"; "/home/u/l"; "/home/u/i"; "/home/u/n"; "/home/u/k";
         "/home/u/s"; "/"; "/home/u/l"]
  /\ symlinks_to_real_paths host (VList ["/links/l"]) = Ok ["/data/x/y"].
Proof. repeat split; vm_compute; reflexivity. Qed.

(** *** [lock_dir] *)

Lemma lock_dir_leaves_state (os : os_state) (path_d : string) :
  snd (lock_dir os path_d) = os.
Proof. reflexivity. Qed.

(** C3 at the input ["/data"] on [host], an existing directory with mode
    0o755: [lock_dir] returns normally and the host is left as it was, the
    owner's write bit (0o200) still set. *)
Theorem lock_dir_changes_nothing :
  os_isdir host "/data" = true
  /\ fst (lock_dir host "/data") = Ok tt
  /\ snd (lock_dir host "/data") = host
  /\ os_dir_mode (snd (lock_dir host "/data")) "/data" = Some 493%Z
  /\ Z.testbit 493 7 = true.
Proof. repeat split; vm_compute; reflexivity. Qed.

(** *** [recursively_list_files_in_dirs] *)

Lemma join_absolute_twice (dir_d file_n : string) :
  startswith_sep dir_d = true ->
  join dir_d [dir_d; file_n] = join dir_d [file_n].
Proof.
  intros H. unfold join. simpl. unfold join2 at 2. rewrite H. reflexivity.
Qed.

(** C5 at the input ["proj"] on [host] (working directory ["/home/u"]):
    the walk reports the files under ["proj"] and ["proj/sub"], and the
    entries returned join each directory to itself before the file name, so
    they name nothing that exists. *)
Theorem recursively_list_files_relative_dir :
  os_walk host "proj" =
    [("proj", ["sub"], ["f.txt"]); ("proj/sub", [], ["g.txt"])]
  /\ recursively_list_files_in_dirs host (VStr "proj") =
     Ok ["proj/proj/f.txt"; "proj/sub/proj/sub/g.txt"]
  /\ join "proj" ["f.txt"] = "proj/f.txt"
  /\ os_exists host "proj/f.txt" = true
  /\ os_exists host "proj/proj/f.txt" = false.
Proof. repeat split; vm_compute; reflexivity. Qed.

(** *** Text lemmas: [dirname] never lengthens a path *)

Section Text.

Lemma append_empty_r (a : string) : (a ++ "")%string = a.
Proof. induction a as [|c a IH]; simpl; [reflexivity | now rewrite IH]. Qed.

Lemma length_app (a b : string) :
  String.length (a ++ b)%string = String.length a + String.length b.
Proof. induction a as [|c a IH]; simpl; [reflexivity | now rewrite IH]. Qed.

Lemma is_prefix_refl (a : string) : is_prefix a a.
Proof. exists "". now rewrite append_empty_r. Qed.

Lemma is_prefix_empty (a : string) : is_prefix "" a.
Proof. now exists a. Qed.

Lemma is_prefix_cons (c : ascii) (a b : string) :
  is_prefix a b -> is_prefix (String c a) (String c b).
Proof. intros [t ->]. now exists t. Qed.

Lemma is_prefix_trans (a b c : string) :
  is_prefix a b -> is_prefix b c -> is_prefix a c.
Proof.
  intros [t ->] [u ->]. exists (t ++ u)%string.
  induction a as [|x a IH]; simpl; [reflexivity | now rewrite IH].
Qed.

Lemma is_prefix_length (a b : string) :
  is_prefix a b -> String.length a <= String.length b.
Proof. intros [t ->]. rewrite length_app. lia. Qed.

Lemma is_prefix_same_length (a b : string) :
  is_prefix a b -> String.length a = String.length b -> a = b.
Proof.
  intros [t ->] H. rewrite length_app in H.
  destruct t; [now rewrite append_empty_r | simpl in H; lia].
Qed.

Lemma rstrip_prefix (s : string) : is_prefix (rstrip s) s.
Proof.
  induction s as [|c t IH]; simpl.
  - apply is_prefix_refl.
  - destruct (rstrip t) eqn:E.
    + destruct (is_sep c); [apply is_prefix_empty|].
      apply is_prefix_cons, is_prefix_empty.
    + now apply is_prefix_cons.
Qed.

Lemma head_part_prefix (p : string) : is_prefix (head_part p) p.
Proof.
  induction p as [|c t IH]; simpl.
  - apply is_prefix_refl.
  - destruct (head_part t) eqn:E.
    + destruct (is_sep c); [|apply is_prefix_empty].
      apply is_prefix_cons, is_prefix_empty.
    + now apply is_prefix_cons.
Qed.

Lemma strip_head_prefix (h : string) : is_prefix (strip_head h) h.
Proof.
  unfold strip_head.
  destruct (negb (is_empty h) && negb (all_sep h));
    [apply rstrip_prefix | apply is_prefix_refl].
Qed.

Lemma dirname_prefix (p : string) : is_prefix (dirname p) p.
Proof.
  unfold dirname.
  eapply is_prefix_trans; [apply strip_head_prefix | apply head_part_prefix].
Qed.

Lemma dirname_length (p : string) :
  String.length (dirname p) <= String.length p.
Proof. apply is_prefix_length, dirname_prefix. Qed.

(** A parent is the path itself or strictly shorter. *)
Lemma dirname_shrinks (p : string) :
  dirname p <> p -> String.length (dirname p) < String.length p.
Proof.
  intros H. pose proof (dirname_length p) as L.
  destruct (Nat.eq_dec (String.length (dirname p)) (String.length p)) as [E|E];
    [|lia].
  exfalso. apply H. apply is_prefix_same_length; [apply dirname_prefix | exact E].
Qed.

Lemma is_root_true (p : string) : is_root p = true <-> dirname p = p.
Proof. unfold is_root. apply String.eqb_eq. Qed.

Lemma is_root_false (p : string) : is_root p = false <-> dirname p <> p.
Proof. unfold is_root. apply String.eqb_neq. Qed.

Lemma rstrip_length (s : string) : String.length (rstrip s) <= String.length s.
Proof. apply is_prefix_length, rstrip_prefix. Qed.

End Text.

(** *** The loop of [ancestor_contains_file] *)

Section Climb.

Variable os : os_state.
Variable files_n : list string.

Lemma climb_step (fuel : nat) (depth : option Z) (t : string) (count : Z)
      (latch : bool) :
  climb os (S fuel) files_n depth t count latch =
  if contains_any os t files_n
  then Some {| found := Some t; examined := [t] |}
  else if depth_reached depth (count + 1)
       then Some {| found := None; examined := [t] |}
       else if is_root (dirname t)
            then if latch
                 then Some {| found := None; examined := [t] |}
                 else option_map (looked_into t)
                        (climb os fuel files_n depth (dirname t) (count + 1) true)
            else option_map (looked_into t)
                   (climb os fuel files_n depth (dirname t) (count + 1) latch).
Proof. reflexivity. Qed.

(** The loop ends: the length of [test_p], plus one while the latch is
    still open, bounds the iterations left. *)
Lemma climb_terminates (fuel : nat) :
  forall (depth : option Z) (t : string) (count : Z) (latch : bool),
    String.length t + (if latch then 0 else 1) < fuel ->
    exists r, climb os fuel files_n depth t count latch = Some r.
Proof.
  induction fuel as [|fuel IH]; intros depth t count latch Hm; [lia|].
  rewrite climb_step.
  destruct (contains_any os t files_n); [eauto|].
  destruct (depth_reached depth (count + 1)); [eauto|].
  pose proof (dirname_length t) as Hle.
  destruct (is_root (dirname t)) eqn:Hroot.
  - destruct latch; [eauto|].
    destruct (IH depth (dirname t) (count + 1)%Z true) as [r Hr]; [lia|].
    rewrite Hr. simpl. eauto.
  - assert (dirname t <> t) as Hne.
    { intros E. apply is_root_false in Hroot. apply Hroot. now rewrite E. }
    apply dirname_shrinks in Hne.
    destruct (IH depth (dirname t) (count + 1)%Z latch) as [r Hr].
    { destruct latch; lia. }
    rewrite Hr. simpl. eauto.
Qed.

(** Fuel beyond what a run uses does not change its outcome. *)
Lemma climb_more_fuel (fuel : nat) :
  forall (depth : option Z) (t : string) (count : Z) (latch : bool)
         (r : search) (fuel' : nat),
    climb os fuel files_n depth t count latch = Some r ->
    fuel <= fuel' ->
    climb os fuel' files_n depth t count latch = Some r.
Proof.
  induction fuel as [|fuel IH]; intros depth t count latch r fuel' H Hle;
    [discriminate H|].
  destruct fuel' as [|fuel']; [lia|].
  rewrite climb_step in *.
  destruct (contains_any os t files_n); [exact H|].
  destruct (depth_reached depth (count + 1)); [exact H|].
  destruct (is_root (dirname t)).
  - destruct latch; [exact H|].
    destruct (climb os fuel files_n depth (dirname t) (count + 1) true)
      as [r0|] eqn:E; [|discriminate H].
    rewrite (IH _ _ _ _ r0 fuel' E); [exact H | lia].
  - destruct (climb os fuel files_n depth (dirname t) (count + 1) latch)
      as [r0|] eqn:E; [|discriminate H].
    rewrite (IH _ _ _ _ r0 fuel' E); [exact H | lia].
Qed.



End Climb.



(** *** Runs of [ancestor_contains_file] *)

Section Search.

Variable os : os_state.

Lemma first_ancestor_length (path_p : string) :
  String.length (first_ancestor os path_p) <= String.length path_p.
Proof.
  unfold first_ancestor.
  pose proof (rstrip_length path_p) as L1.
  pose proof (dirname_length (rstrip path_p)) as L2.
  destruct (negb (os_isdir os (rstrip path_p))).
  - pose proof (dirname_length (dirname (rstrip path_p))). lia.
  - lia.
Qed.

Lemma first_ancestor_of_directory (path_p : string) :
  os_isdir os (rstrip path_p) = true ->
  first_ancestor os path_p = dirname (rstrip path_p).
Proof. intros H. unfold first_ancestor. now rewrite H. Qed.

(** When the assertions hold the loop is entered on the first ancestor. *)
Lemma ancestor_start_ok (path_p : string) (files_n depth : value) :
  is_none depth || is_int depth = true ->
  os_exists os path_p = true ->
  os_isdir os path_p = true ->
  is_str files_n || is_list files_n = true ->
  ancestor_start os path_p files_n depth =
  Ok (marker_names files_n, depth_limit depth, first_ancestor os path_p).
Proof.
  intros Hd He Hi Hf. unfold ancestor_start, assert.
  now rewrite Hd, He, Hi, Hf.
Qed.

Lemma ancestor_start_cases (path_p : string) (files_n depth : value) :
  ancestor_start os path_p files_n depth = Raise AssertionError
  \/ ancestor_start os path_p files_n depth =
     Ok (marker_names files_n, depth_limit depth, first_ancestor os path_p).
Proof.
  unfold ancestor_start, assert.
  destruct (is_none depth || is_int depth); [|now left].
  destruct (os_exists os path_p); [|now left].
  destruct (os_isdir os path_p); [|now left].
  destruct (is_str files_n || is_list files_n); [|now left].
  now right.
Qed.

(** The fuel that [ancestor_contains_file] hands to its loop is enough. *)
Lemma ancestor_run (path_p : string) (files_n depth : value) :
  is_none depth || is_int depth = true ->
  os_exists os path_p = true ->
  os_isdir os path_p = true ->
  is_str files_n || is_list files_n = true ->
  exists r,
    climb os (String.length path_p + 2) (marker_names files_n)
      (depth_limit depth) (first_ancestor os path_p) 0 false = Some r
    /\ ancestor_contains_file os path_p files_n depth = Some (Ok r).
Proof.
  intros Hd He Hi Hf.
  destruct (climb_terminates os (marker_names files_n)
              (String.length path_p + 2) (depth_limit depth)
              (first_ancestor os path_p) 0%Z false) as [r Hr].
  { pose proof (first_ancestor_length path_p). lia. }
  exists r. split; [exact Hr|].
  unfold ancestor_contains_file, ancestor_contains_file_fuel.
  rewrite (ancestor_start_ok _ _ _ Hd He Hi Hf), Hr. reflexivity.
Qed.

(** [ancestor_contains_file] returns or raises on every input; it never
    loops for ever. *)
Lemma ancestor_contains_file_terminates (path_p : string)
      (files_n depth : value) :
  exists r, ancestor_contains_file os path_p files_n depth = Some r.
Proof.
  unfold ancestor_contains_file, ancestor_contains_file_fuel.
  destruct (ancestor_start_cases path_p files_n depth) as [-> | ->];
    [eauto|].
  destruct (climb_terminates os (marker_names files_n)
              (String.length path_p + 2) (depth_limit depth)
              (first_ancestor os path_p) 0%Z false) as [r Hr].
  { pose proof (first_ancestor_length path_p). lia. }
  rewrite Hr. simpl. eauto.
Qed.

(** More fuel than [ancestor_contains_file] uses gives the same run. *)
Lemma ancestor_contains_file_fuel_enough (fuel : nat) (path_p : string)
      (files_n depth : value) :
  String.length path_p + 2 <= fuel ->
  ancestor_contains_file_fuel os fuel path_p files_n depth =
  ancestor_contains_file os path_p files_n depth.
Proof.
  intros Hle.
  destruct (ancestor_contains_file_terminates path_p files_n depth) as [r Hr].
  rewrite Hr. unfold ancestor_contains_file in Hr.
  unfold ancestor_contains_file_fuel in *.
  destruct (ancestor_start os path_p files_n depth) as [[[f d] t]|e];
    [|exact Hr].
  destruct (climb os (String.length path_p + 2) f d t 0 false) as [r0|] eqn:E;
    [|discriminate Hr].
  now rewrite (climb_more_fuel os f _ _ _ _ _ r0 fuel E Hle).
Qed.

End Search.

(** *** [ancestor_contains_file]: the claims *)

Example ancestor_search_finds_marker_above :
  ancestor_contains_file host "/w/p/q" (VStr ".marker") VNone =
  Some (Ok {| found := Some "/w"; examined := ["/w/p"; "/w"] |}).
Proof. vm_compute. reflexivity. Qed.

Example ancestor_search_reaches_root_once :
  ancestor_contains_file host "/data/x" (VList ["nope"; "none"]) (VInt 0) =
  Some (Ok {| found := None; examined := ["/data"; "/"] |}).
Proof. vm_compute. reflexivity. Qed.

Example ancestor_search_from_root :
  ancestor_contains_file host "/" (VStr "proj") VNone =
  Some (Ok {| found := Some ""; examined := [""] |}).
Proof. vm_compute. reflexivity. Qed.


(** C8, as stated, fails on [host] for the start path ["/d/a"], an existing
    regular file: the call raises instead of searching from ["/d"]. *)
Lemma ancestor_search_file_start_raises :
  os_exists host "/d/a" = true
  /\ os_isdir host "/d/a" = false
  /\ ancestor_contains_file host "/d/a" (VStr ".marker") VNone =
     Some (Raise AssertionError).
Proof. repeat split; vm_compute; reflexivity. Qed.

(** *** [dir_files_keyed_by_size] *)

Section Buckets.

Variable os : os_state.

Lemma dict_get_set (k k' : Z) (v : list string) (d : size_dict) :
  dict_get k' (dict_set k v d) =
  if (k =? k')%Z then Some v else dict_get k' d.
Proof.
  induction d as [|[k0 v0] r IH]; simpl.
  - reflexivity.
  - destruct (k0 =? k)%Z eqn:E0; simpl.
    + apply Z.eqb_eq in E0. subst k0.
      destruct (k =? k')%Z; reflexivity.
    + rewrite IH. destruct (k0 =? k')%Z eqn:E1; [|reflexivity].
      apply Z.eqb_eq in E1. subst k0.
      rewrite Z.eqb_sym, E0. reflexivity.
Qed.

Lemma keys_set (k : Z) (v : list string) (d : size_dict) :
  map fst (dict_set k v d) =
  match dict_get k d with
  | Some _ => map fst d
  | None => map fst d ++ [k]
  end.
Proof.
  induction d as [|[k0 v0] r IH]; simpl; [reflexivity|].
  destruct (k0 =? k)%Z; simpl; [reflexivity|].
  rewrite IH. destruct (dict_get k r); reflexivity.
Qed.

Lemma dict_get_none_not_key (k : Z) (d : size_dict) :
  dict_get k d = None -> ~ In k (map fst d).
Proof.
  induction d as [|[k0 v0] r IH]; simpl; [tauto|].
  destruct (k0 =? k)%Z eqn:E; [discriminate|].
  intros H [Hk|Hin]; [|now apply IH].
  apply Z.eqb_neq in E. contradiction.
Qed.

Lemma keys_set_nodup (k : Z) (v : list string) (d : size_dict) :
  NoDup (map fst d) -> NoDup (map fst (dict_set k v d)).
Proof.
  intros H. rewrite keys_set.
  destruct (dict_get k d) eqn:E; [exact H|].
  apply (Permutation_NoDup (Permutation_cons_append (map fst d) k)).
  constructor; [now apply dict_get_none_not_key | exact H].
Qed.

Lemma in_dict_get (k : Z) (l : list string) (d : size_dict) :
  NoDup (map fst d) -> In (k, l) d -> dict_get k d = Some l.
Proof.
  induction d as [|[k0 v0] r IH]; simpl; [tauto|].
  intros Hnd [Heq|Hin].
  - injection Heq as -> ->. now rewrite Z.eqb_refl.
  - inversion Hnd as [|? ? Hnotin Hnd']; subst.
    destruct (k0 =? k)%Z eqn:E; [|now apply IH].
    apply Z.eqb_eq in E. subst k0. exfalso. apply Hnotin.
    change k with (fst (k, l)). now apply in_map.
Qed.

Lemma flatten_set_new (k : Z) (p : string) (d : size_dict) :
  dict_get k d = None -> flatten (dict_set k [p] d) = flatten d ++ [p].
Proof.
  unfold flatten.
  induction d as [|[k0 v0] r IH]; simpl; [reflexivity|].
  destruct (k0 =? k)%Z; [discriminate|].
  intros H. simpl. rewrite (IH H). now rewrite app_assoc.
Qed.

Lemma flatten_set_old (k : Z) (p : string) (l : list string) (d : size_dict) :
  dict_get k d = Some l ->
  Permutation (flatten (dict_set k (l ++ [p]) d)) (flatten d ++ [p]).
Proof.
  unfold flatten.
  induction d as [|[k0 v0] r IH]; simpl; [discriminate|].
  destruct (k0 =? k)%Z.
  - intros H. injection H as ->. simpl.
    rewrite <- !app_assoc. apply Permutation_app_head, Permutation_app_comm.
  - intros H. simpl. rewrite <- app_assoc.
    apply Permutation_app_head, IH, H.
Qed.

Lemma filter_snoc (k : Z) (z : Z) (p : string) (done : list string) :
  os_getsize os p = Ok z ->
  filter (has_size os k) (done ++ [p]) =
  filter (has_size os k) done ++ (if (z =? k)%Z then [p] else []).
Proof.
  intros H. rewrite filter_app. simpl. unfold has_size at 2. now rewrite H.
Qed.

Lemma entry_paths_cons (path_d n : string) (rest pre : list string) :
  pre ++ entry_paths path_d (n :: rest) =
  (pre ++ [join path_d [n]]) ++ entry_paths path_d rest.
Proof. rewrite <- app_assoc. reflexivity. Qed.

Lemma bucket_files_cons (path_d n : string) (rest : list string)
      (d : size_dict) :
  bucket_files os path_d (n :: rest) d =
  (file_size <- os_getsize os (join path_d [n]) ;;
   match dict_get file_size d with
   | None => bucket_files os path_d rest (dict_set file_size [join path_d [n]] d)
   | Some existing_files =>
       bucket_files os path_d rest
         (dict_set file_size (existing_files ++ [join path_d [n]]) d)
   end).
Proof. reflexivity. Qed.

(** The loop keeps, for every size, the paths of that size seen so far, in
    the order they were seen. *)
Lemma bucket_files_buckets (path_d : string) (names : list string) :
  forall (done : list string) (d out : size_dict),
    (forall k, dict_get k d = bucket_of os k done) ->
    bucket_files os path_d names d = Ok out ->
    forall k, dict_get k out = bucket_of os k (done ++ entry_paths path_d names).
Proof.
  induction names as [|n rest IH]; intros done d out Hinv H k.
  - injection H as <-. unfold entry_paths. simpl. now rewrite app_nil_r.
  - rewrite bucket_files_cons in H.
    destruct (os_getsize os (join path_d [n])) as [z|e] eqn:Hz;
      [|discriminate H].
    cbn [bind] in H.
    assert (forall v,
               (dict_get z d = None -> v = [join path_d [n]]) ->
               (forall l, dict_get z d = Some l -> v = l ++ [join path_d [n]]) ->
               forall k', dict_get k' (dict_set z v d) =
                          bucket_of os k' (done ++ [join path_d [n]])) as Hstep.
    { intros v Hnone Hsome k'. rewrite dict_get_set.
      unfold bucket_of. rewrite (filter_snoc k' z _ done Hz).
      destruct (z =? k')%Z eqn:E.
      - apply Z.eqb_eq in E. subst k'.
        specialize (Hinv z). unfold bucket_of in Hinv.
        destruct (filter (has_size os z) done) as [|x l] eqn:F.
        + now rewrite (Hnone Hinv).
        + now rewrite (Hsome _ Hinv).
      - rewrite app_nil_r. apply Hinv. }
    rewrite entry_paths_cons.
    destruct (dict_get z d) as [l|] eqn:G.
    + eapply IH; [|exact H]. apply Hstep; congruence.
    + eapply IH; [|exact H]. apply Hstep; congruence.
Qed.

Lemma bucket_files_keys (path_d : string) (names : list string) :
  forall (d out : size_dict),
    NoDup (map fst d) ->
    bucket_files os path_d names d = Ok out ->
    NoDup (map fst out).
Proof.
  induction names as [|n rest IH]; intros d out Hnd H.
  - now injection H as <-.
  - rewrite bucket_files_cons in H.
    destruct (os_getsize os (join path_d [n])) as [z|e]; [|discriminate H].
    cbn [bind] in H.
    destruct (dict_get z d); apply (IH _ _ (keys_set_nodup _ _ _ Hnd) H).
Qed.

Lemma bucket_files_flatten (path_d : string) (names : list string) :
  forall (d out : size_dict),
    bucket_files os path_d names d = Ok out ->
    Permutation (flatten out) (flatten d ++ entry_paths path_d names).
Proof.
  induction names as [|n rest IH]; intros d out H.
  - injection H as <-. unfold entry_paths. simpl. now rewrite app_nil_r.
  - rewrite bucket_files_cons in H.
    destruct (os_getsize os (join path_d [n])) as [z|e]; [|discriminate H].
    cbn [bind] in H. rewrite entry_paths_cons.
    destruct (dict_get z d) as [l|] eqn:G.
    + rewrite (IH _ _ H). apply Permutation_app_tail.
      now apply flatten_set_old.
    + rewrite (IH _ _ H). now rewrite flatten_set_new.
Qed.

Lemma bucket_files_returns (path_d : string) (names : list string) :
  (forall n, In n names -> exists z, os_getsize os (join path_d [n]) = Ok z) ->
  forall d, exists out, bucket_files os path_d names d = Ok out.
Proof.
  induction names as [|n rest IH]; intros Hall d; [simpl; eauto|].
  rewrite bucket_files_cons.
  destruct (Hall n (or_introl eq_refl)) as [z ->]. cbn [bind].
  assert (forall m, In m rest ->
                    exists z, os_getsize os (join path_d [m]) = Ok z) as Hrest
      by (intros m Hm; apply Hall; now right).
  destruct (dict_get z d); apply (IH Hrest).
Qed.

End Buckets.

(** C4 at the input ["/d"] on [host], a directory that holds the files
    [a], [b], [e] and the subdirectory [s]: [dir_files_keyed_by_size] does
    not leave the subdirectory out, it puts it in a bucket of its own under
    the size the host reports for the directory, so the flattened mapping
    holds a path that is not a file. *)
Lemma dir_files_keyed_by_size_buckets_subdirectory :
  os_isdir host "/d/s" = true
  /\ dir_files_keyed_by_size host "/d" =
     Ok [(10, ["/d/a"; "/d/b"]); (4096, ["/d/s"]); (20, ["/d/e"])]%Z
  /\ In "/d/s" (flatten [(10, ["/d/a"; "/d/b"]); (4096, ["/d/s"]);
                         (20, ["/d/e"])]%Z).
Proof.
  split; [vm_compute; reflexivity|].
  split; [vm_compute; reflexivity|].
  simpl. tauto.
Qed.

(** X17: for every existing directory whose entries can all be measured,
    [dir_files_keyed_by_size] returns; every immediate entry of the
    directory, of whatever kind, is in the bucket of the size the host
    reports for it and no directory is entered.  The keys are distinct,
    each bucket holds exactly the entries of its size in listing order, and
    flattening the buckets gives back the listing, nothing lost and nothing
    twice. *)
Theorem dir_files_keyed_by_size_buckets_entries (os : os_state)
        (path_d : string) (names : list string) :
  os_exists os path_d = true ->
  os_listdir os path_d = Ok names ->
  (forall n, In n names -> exists z, os_getsize os (join path_d [n]) = Ok z) ->
  exists out,
    dir_files_keyed_by_size os path_d = Ok out
    /\ Permutation (flatten out) (entry_paths path_d names)
    /\ NoDup (map fst out)
    /\ forall k l,
        In (k, l) out ->
        l <> [] /\ l = filter (has_size os k) (entry_paths path_d names).
Proof.
  intros He Hl Hall.
  destruct (bucket_files_returns os path_d names Hall []) as [out Hout].
  exists out. unfold dir_files_keyed_by_size, assert. rewrite He, Hl. simpl.
  split; [exact Hout|].
  split; [exact (bucket_files_flatten os path_d names [] out Hout)|].
  assert (NoDup (map fst out)) as Hnd
      by (apply (bucket_files_keys os path_d names [] out); [constructor | exact Hout]).
  split; [exact Hnd|].
  intros k l Hin.
  pose proof (in_dict_get k l out Hnd Hin) as Hg.
  rewrite (bucket_files_buckets os path_d names [] [] out (fun _ => eq_refl) Hout)
    in Hg.
  unfold bucket_of in Hg. simpl in Hg.
  destruct (filter (has_size os k) (entry_paths path_d names)) as [|x r];
    [discriminate Hg|].
  injection Hg as <-. split; [discriminate | reflexivity].
Qed.

Lemma dir_files_keyed_by_size_buckets_entries_witness :
  exists out,
    dir_files_keyed_by_size host "/d" = Ok out
    /\ Permutation (flatten out) ["/d/a"; "/d/b"; "/d/s"; "/d/e"].
Proof.
  destruct (dir_files_keyed_by_size_buckets_entries host "/d"
              ["a"; "b"; "s"; "e"]) as (out & Hout & Hperm & _).
  - vm_compute. reflexivity.
  - vm_compute. reflexivity.
  - intros n Hin. simpl in Hin.
    destruct Hin as [<-|[<-|[<-|[<-|[]]]]]; eexists; vm_compute; reflexivity.
  - exists out. split; [exact Hout | exact Hperm].
Defined.


(* ====================================================================== *)
(** ** Further properties *)

(** *** [convert_unix_path_to_os_path]: what the conversion computes *)

Section Convert.

Lemma append_assoc (a b c : string) :
  ((a ++ b) ++ c)%string = (a ++ (b ++ c))%string.
Proof. induction a as [|x a IH]; simpl; [reflexivity | now rewrite IH]. Qed.

Lemma is_sep_eq (c : ascii) : is_sep c = true -> c = sep.
Proof. apply Ascii.eqb_eq. Qed.

Lemma lstrip_not_absolute (s : string) : startswith_sep (lstrip s) = false.
Proof.
  induction s as [|c t IH]; simpl; [reflexivity|].
  destruct (is_sep c) eqn:E; [exact IH | simpl; exact E].
Qed.

Lemma lstrip_fixed (s : string) : startswith_sep s = false -> lstrip s = s.
Proof. destruct s as [|c t]; simpl; [reflexivity|]. now intros ->. Qed.

Lemma squeeze_head (s : string) : startswith_sep (squeeze s) = startswith_sep s.
Proof.
  induction s as [|c t IH]; simpl; [reflexivity|].
  destruct (is_sep c) eqn:E; simpl.
  - destruct (startswith_sep t) eqn:F; simpl; [now rewrite IH | exact E].
  - exact E.
Qed.

Lemma squeeze_idempotent (s : string) : squeeze (squeeze s) = squeeze s.
Proof.
  induction s as [|c t IH]; simpl; [reflexivity|].
  destruct (is_sep c && startswith_sep t) eqn:E; [exact IH|].
  simpl. rewrite squeeze_head, E. now rewrite IH.
Qed.

Lemma squeeze_cons (c : ascii) (t : string) :
  squeeze (String c t) =
  if is_sep c && startswith_sep t then squeeze t else String c (squeeze t).
Proof. reflexivity. Qed.

Lemma lstrip_cons (c : ascii) (t : string) :
  lstrip (String c t) = if is_sep c then lstrip t else String c t.
Proof. reflexivity. Qed.

(** After a separator, the separators that follow it disappear. *)
Lemma squeeze_after_sep (c : ascii) (t : string) :
  is_sep c = true -> squeeze (String c t) = String c (squeeze (lstrip t)).
Proof.
  intros Hc. revert c Hc.
  induction t as [|c' t IH]; intros c Hc; rewrite squeeze_cons, Hc.
  - reflexivity.
  - rewrite lstrip_cons. cbn [startswith_sep andb].
    destruct (is_sep c') eqn:E.
    + rewrite (IH c' E). now rewrite (is_sep_eq _ Hc), (is_sep_eq _ E).
    + reflexivity.
Qed.

Lemma no_sep_not_absolute (w : string) : no_sep w = true -> startswith_sep w = false.
Proof.
  destruct w as [|c t]; simpl; [reflexivity|].
  intros H. apply andb_true_iff in H. now apply negb_true_iff.
Qed.

Lemma squeeze_no_sep (w t : string) :
  no_sep w = true -> squeeze (w ++ t) = (w ++ squeeze t)%string.
Proof.
  induction w as [|c w IH]; simpl; [reflexivity|].
  intros H. apply andb_true_iff in H. destruct H as [Hc Hw].
  apply negb_true_iff in Hc. rewrite Hc. simpl. now rewrite IH.
Qed.

Lemma no_sep_snoc (w : string) (c : ascii) :
  no_sep w = true -> is_sep c = false ->
  no_sep (w ++ String c "") = true.
Proof.
  induction w as [|x w IH]; simpl; intros Hw Hc.
  - now rewrite Hc.
  - apply andb_true_iff in Hw. destruct Hw as [Hx Hw].
    rewrite Hx. simpl. now apply IH.
Qed.

Lemma endswith_sep_app (a : string) (c : ascii) (w : string) :
  endswith_sep (a ++ String c w) = endswith_sep (String c w).
Proof.
  induction a as [|x a IH]; [reflexivity|].
  change (String x a ++ String c w)%string with (String x (a ++ String c w)).
  destruct (a ++ String c w)%string as [|y r] eqn:E.
  - destruct a; discriminate E.
  - rewrite <- IH. reflexivity.
Qed.

Lemma no_sep_not_trailing (c : ascii) (w : string) :
  no_sep (String c w) = true -> endswith_sep (String c w) = false.
Proof.
  revert c. induction w as [|x w IH]; intros c H; simpl in *.
  - apply andb_true_iff in H. now apply negb_true_iff.
  - apply andb_true_iff in H. destruct H as [_ H]. now apply IH.
Qed.

Lemma ensure_sep_idempotent (a : string) : ensure_sep (ensure_sep a) = ensure_sep a.
Proof.
  unfold ensure_sep at 2.
  destruct (is_empty a || endswith_sep a) eqn:E.
  - unfold ensure_sep. now rewrite E.
  - unfold ensure_sep.
    replace (endswith_sep (a ++ String sep "")) with true.
    + now rewrite orb_true_r, E.
    + rewrite endswith_sep_app. reflexivity.
Qed.

(** [join2] with a second part that is not absolute only ever appends. *)
Lemma join2_relative (path b : string) :
  startswith_sep b = false -> join2 path b = (ensure_sep path ++ b)%string.
Proof.
  intros H. unfold join2, ensure_sep. rewrite H.
  destruct (is_empty path || endswith_sep path); [reflexivity|].
  now rewrite append_assoc.
Qed.

Lemma append_not_empty (a : string) (c : ascii) (w : string) :
  is_empty (a ++ String c w) = false.
Proof. destruct a; reflexivity. Qed.

Lemma ensure_sep_after_word (a : string) (c : ascii) (w : string) :
  no_sep (String c w) = true ->
  ensure_sep (a ++ String c w) = (a ++ String c w ++ String sep "")%string.
Proof.
  intros H. unfold ensure_sep.
  rewrite endswith_sep_app, (no_sep_not_trailing _ _ H), append_not_empty.
  simpl orb. cbv iota. now rewrite append_assoc.
Qed.

(** The heart of the conversion: joining the segments of [w ++ t] onto
    [acc], where [w] is the part of the current segment already read. *)
Lemma join_segments (t : string) :
  forall (w acc : string),
    no_sep w = true ->
    match str_split t with
    | h :: r => fold_left join2 r (join2 acc (w ++ h))
    | [] => acc
    end = (ensure_sep acc ++ squeeze (lstrip (w ++ t)))%string.
Proof.
  induction t as [|c t IH]; intros w acc Hw.
  - simpl. rewrite append_empty_r.
    rewrite (join2_relative _ _ (no_sep_not_absolute _ Hw)).
    rewrite (lstrip_fixed _ (no_sep_not_absolute _ Hw)).
    rewrite <- (append_empty_r w) at 2.
    rewrite (squeeze_no_sep w "" Hw). simpl. now rewrite append_empty_r.
  - simpl str_split. destruct (is_sep c) eqn:Hc.
    + rewrite append_empty_r.
      specialize (IH "" (join2 acc w) eq_refl). simpl append in IH.
      destruct (str_split t) as [|h r] eqn:Hs;
        [exfalso; exact (str_split_nonempty t Hs)|].
      simpl fold_left. rewrite IH.
      rewrite (join2_relative _ _ (no_sep_not_absolute _ Hw)).
      destruct w as [|x w].
      * rewrite append_empty_r, ensure_sep_idempotent.
        simpl append. simpl lstrip. now rewrite Hc.
      * rewrite (ensure_sep_after_word _ _ _ Hw).
        rewrite (lstrip_fixed (String x w ++ String c t));
          [|apply andb_true_iff in Hw; destruct Hw as [Hx _];
            now apply negb_true_iff in Hx].
        rewrite (squeeze_no_sep _ _ Hw), (squeeze_after_sep c t Hc).
        rewrite (is_sep_eq _ Hc). rewrite !append_assoc. reflexivity.
    + destruct (str_split t) as [|h r] eqn:Hs;
        [exfalso; exact (str_split_nonempty t Hs)|].
      specialize (IH (w ++ String c "")%string acc (no_sep_snoc w c Hw Hc)).
      rewrite !append_assoc in IH. simpl append in IH. exact IH.
Qed.

End Convert.

(** X1: on every string, [convert_unix_path_to_os_path] returns the input
    without its leading separators and with every run of separators
    reduced to a single one. *)
Theorem convert_unix_path_squeezes (s : string) :
  convert_unix_path_to_os_path (VStr s) = Ok (squeeze (lstrip s)).
Proof.
  unfold convert_unix_path_to_os_path, join_star, join.
  pose proof (join_segments (lstrip s) "" "" eq_refl) as H.
  destruct (str_split (lstrip s)) as [|a p] eqn:E;
    [exfalso; exact (str_split_nonempty _ E)|].
  simpl append in H. rewrite (lstrip_fixed _ (lstrip_not_absolute s)) in H.
  change (ensure_sep "") with "" in H. simpl append in H.
  f_equal. rewrite <- H.
  replace (join2 "" a) with a; [reflexivity|].
  unfold join2. destruct (startswith_sep a); reflexivity.
Qed.

(** X2: the conversion is idempotent: a path that it returned is returned
    unchanged when converted again. *)
Theorem convert_unix_path_idempotent (s r : string) :
  convert_unix_path_to_os_path (VStr s) = Ok r ->
  convert_unix_path_to_os_path (VStr r) = Ok r.
Proof.
  rewrite !convert_unix_path_squeezes. intros H. injection H as <-.
  rewrite (lstrip_fixed (squeeze (lstrip s))).
  - now rewrite squeeze_idempotent.
  - rewrite squeeze_head. apply lstrip_not_absolute.
Qed.

Lemma convert_unix_path_idempotent_witness :
  convert_unix_path_to_os_path (VStr "a/b/c") = Ok "a/b/c".
Proof.
  apply (convert_unix_path_idempotent "//a//b/c" "a/b/c"). reflexivity.
Defined.

(** X3: the conversion never returns an absolute path: whatever the input
    string, the result does not begin with a separator. *)
Theorem convert_unix_path_relative (s : string) :
  exists r, convert_unix_path_to_os_path (VStr s) = Ok r
            /\ startswith_sep r = false.
Proof.
  exists (squeeze (lstrip s)). split; [apply convert_unix_path_squeezes|].
  rewrite squeeze_head. apply lstrip_not_absolute.
Qed.

(** *** [symlink_source_is_in_dir] on links with an absolute path *)

(** X4: a path that is not a symbolic link is rejected with an assertion
    error.  For a symbolic link given by an absolute path, on a host where
    the root is its own real path, the answer does not depend on where the
    link points: it is the result of testing the candidate directory
    against ["/"], by prefix with [include_subdirs] and by equality
    without. *)
Theorem symlink_source_absolute_link (os : os_state) (link_p path_d : string)
        (include_subdirs : bool) :
  (os_islink os link_p = false ->
   symlink_source_is_in_dir os link_p path_d include_subdirs =
   Raise AssertionError)
  /\ (startswith_sep link_p = true ->
      os_islink os link_p = true ->
      os_realpath os "/" = "/" ->
      symlink_source_is_in_dir os link_p path_d include_subdirs =
      Ok (if include_subdirs then startswith "/" path_d
          else String.eqb "/" path_d)).
Proof.
  split.
  - intros H. unfold symlink_source_is_in_dir, assert. now rewrite H.
  - intros Habs Hlink Hroot. destruct link_p as [|c rest]; [discriminate Habs|].
    rewrite (symlink_source_first_character os c rest path_d include_subdirs Hlink).
    simpl in Habs. rewrite (is_sep_eq c Habs).
    change (String sep "") with "/". rewrite Hroot. reflexivity.
Qed.

Lemma symlink_source_absolute_link_witness :
  symlink_source_is_in_dir host "/data/x/y" "/data" true = Raise AssertionError
  /\ symlink_source_is_in_dir host "/links/l2" "/data2" true = Ok false
  /\ symlink_source_is_in_dir host "/links/l2" "/" false = Ok true.
Proof.
  split; [|split].
  - apply (proj1 (symlink_source_absolute_link host "/data/x/y" "/data" true)).
    vm_compute. reflexivity.
  - apply (proj2 (symlink_source_absolute_link host "/links/l2" "/data2" true));
      vm_compute; reflexivity.
  - apply (proj2 (symlink_source_absolute_link host "/links/l2" "/" false));
      vm_compute; reflexivity.
Defined.

(** *** [recursively_list_files_in_dirs] and [count_files_recursively] *)

Section Listing.

Variable os : os_state.

(** The paths that [recursively_list_files_in_dirs] builds for one source
    directory. *)
Lemma listing_of_list (dirs : list string) :
  recursively_list_files_in_dirs os (VList dirs) =
  assert (forallb (os_exists os) dirs)
    (Ok (flat_map
           (fun d =>
              flat_map
                (fun t => map (fun f => join (fst (fst t)) [fst (fst t); f])
                            (snd t))
                (os_walk os d))
           dirs)).
Proof.
  unfold recursively_list_files_in_dirs, assert. simpl.
  destruct (forallb (os_exists os) dirs); [|reflexivity].
  f_equal. apply flat_map_ext. intros d. apply flat_map_ext.
  intros [[dir_d sub_dirs_n] files_n]. reflexivity.
Qed.

Lemma listing_of_str (d : string) :
  recursively_list_files_in_dirs os (VStr d) =
  recursively_list_files_in_dirs os (VList [d]).
Proof. reflexivity. Qed.

Lemma flat_map_length {A B : Type} (f : A -> list B) (l : list A) :
  List.length (flat_map f l) = list_sum (map (fun x => List.length (f x)) l).
Proof.
  induction l as [|x l IH]; simpl; [reflexivity|].
  now rewrite List.length_app, IH.
Qed.

Lemma flat_map_agree {A B : Type} (f g : A -> list B) (l : list A) :
  (forall x, In x l -> f x = g x) -> flat_map f l = flat_map g l.
Proof.
  induction l as [|x l IH]; intros H; simpl; [reflexivity|].
  rewrite (H x (or_introl eq_refl)), IH; [reflexivity|].
  intros y Hy. apply H. now right.
Qed.

End Listing.

(** X5: for an existing directory, [count_files_recursively] returns the
    number of paths that [recursively_list_files_in_dirs] returns for it. *)
Theorem count_is_length_of_listing (os : os_state) (dir_d : string) :
  os_exists os dir_d = true ->
  os_isdir os dir_d = true ->
  exists l,
    recursively_list_files_in_dirs os (VStr dir_d) = Ok l
    /\ count_files_recursively os dir_d = Ok (List.length l).
Proof.
  intros He Hi. rewrite listing_of_str, listing_of_list.
  unfold count_files_recursively, assert. simpl forallb. rewrite He, Hi.
  simpl andb. cbv iota. eexists. split; [reflexivity|].
  f_equal. simpl flat_map. rewrite app_nil_r, flat_map_length.
  f_equal. apply map_ext. intros t. now rewrite length_map.
Qed.

Lemma count_is_length_of_listing_witness :
  exists l,
    recursively_list_files_in_dirs studio (VStr "/shots") = Ok l
    /\ count_files_recursively studio "/shots" = Ok (List.length l).
Proof.
  apply (count_is_length_of_listing studio "/shots"); vm_compute; reflexivity.
Defined.

(** X6: listing a concatenation of two lists of directories gives the
    concatenation of the two listings, and fails as soon as one of them
    fails; nothing is removed, so a directory given twice, or inside
    another one, has its files listed again. *)
Theorem listing_of_concatenation (os : os_state) (l1 l2 : list string) :
  recursively_list_files_in_dirs os (VList (l1 ++ l2)) =
  (a <- recursively_list_files_in_dirs os (VList l1) ;;
   b <- recursively_list_files_in_dirs os (VList l2) ;;
   Ok (a ++ b)).
Proof.
  rewrite !listing_of_list. unfold assert. rewrite forallb_app.
  destruct (forallb (os_exists os) l1); [|reflexivity].
  destruct (forallb (os_exists os) l2); [|reflexivity].
  simpl. now rewrite flat_map_app.
Qed.

(** X7: when the walk of every source directory reports absolute
    directories only, the listing is made of the paths one expects: each
    file reported by the walk, joined once to the directory that holds it,
    in the order of the walk. *)
Theorem listing_of_absolute_dirs (os : os_state) (dirs : list string) :
  forallb (os_exists os) dirs = true ->
  (forall d, In d dirs -> walk_is_absolute os d) ->
  recursively_list_files_in_dirs os (VList dirs) =
  Ok (flat_map (walked_files os) dirs).
Proof.
  intros He Habs. rewrite listing_of_list. unfold assert. rewrite He.
  f_equal. apply flat_map_agree.
  intros d Hd. unfold walked_files. apply flat_map_agree.
  intros t Ht. apply map_ext. intros f.
  apply join_absolute_twice. exact (Habs d Hd t Ht).
Qed.

Lemma listing_of_absolute_dirs_witness :
  recursively_list_files_in_dirs studio (VList ["/shots"; "/shots/sh010"]) =
  Ok ["/shots/notes.txt"; "/shots/sh010/plate.exr"; "/shots/sh010/plate.exr"].
Proof.
  refine (eq_trans (listing_of_absolute_dirs studio ["/shots"; "/shots/sh010"]
                      _ _) _).
  - vm_compute. reflexivity.
  - intros d Hd t Ht. simpl in Hd.
    destruct Hd as [<-|[<-|[]]]; vm_compute in Ht;
      repeat (destruct Ht as [<-|Ht]; [reflexivity|]); destruct Ht.
  - vm_compute. reflexivity.
Defined.

(** *** [dir_files_keyed_by_size]: look-up and failure *)

Section BucketsMore.

Variable os : os_state.

Lemma bucket_files_fails (path_d : string) (pre : list string) (n : string)
      (post : list string) (e : exn) :
  (forall m, In m pre -> exists z, os_getsize os (join path_d [m]) = Ok z) ->
  os_getsize os (join path_d [n]) = Raise e ->
  forall d, bucket_files os path_d (pre ++ n :: post) d = Raise e.
Proof.
  intros Hpre Hn. induction pre as [|m pre IH]; intros d.
  - simpl app. rewrite bucket_files_cons, Hn. reflexivity.
  - simpl app. rewrite bucket_files_cons.
    destruct (Hpre m (or_introl eq_refl)) as [z ->]. cbn [bind].
    assert (forall m', In m' pre ->
                       exists z, os_getsize os (join path_d [m']) = Ok z) as Hrest
        by (intros m' Hm'; apply Hpre; now right).
    destruct (dict_get z d); apply (IH Hrest).
Qed.

End BucketsMore.

(** X8: looking a size up in the mapping that [dir_files_keyed_by_size]
    returns gives exactly the entries of that size, in listing order; a
    size that no entry has is not a key. *)
Theorem dir_files_keyed_by_size_lookup (os : os_state) (path_d : string)
        (names : list string) (out : size_dict) (k : Z) :
  os_listdir os path_d = Ok names ->
  dir_files_keyed_by_size os path_d = Ok out ->
  dict_get k out = bucket_of os k (entry_paths path_d names).
Proof.
  intros Hl H. unfold dir_files_keyed_by_size, assert in H.
  destruct (os_exists os path_d); [|discriminate H].
  rewrite Hl in H. cbn [bind] in H.
  exact (bucket_files_buckets os path_d names [] [] out (fun _ => eq_refl) H k).
Qed.

Lemma dir_files_keyed_by_size_lookup_witness :
  dict_get 10 [(10, ["/d/a"; "/d/b"]); (4096, ["/d/s"]); (20, ["/d/e"])]%Z =
    Some ["/d/a"; "/d/b"]
  /\ dict_get 7 [(10, ["/d/a"; "/d/b"]); (4096, ["/d/s"]); (20, ["/d/e"])]%Z =
     None.
Proof.
  split.
  - refine (eq_trans (dir_files_keyed_by_size_lookup host "/d"
                        ["a"; "b"; "s"; "e"] _ 10%Z _ _) _);
      vm_compute; reflexivity.
  - refine (eq_trans (dir_files_keyed_by_size_lookup host "/d"
                        ["a"; "b"; "s"; "e"] _ 7%Z _ _) _);
      vm_compute; reflexivity.
Defined.

(** X9: when an entry of the directory cannot be measured (a dangling
    link, say), [dir_files_keyed_by_size] raises the error of the first
    such entry and returns no partial mapping. *)
Theorem dir_files_keyed_by_size_unmeasurable (os : os_state) (path_d : string)
        (pre : list string) (n : string) (post : list string) (e : exn) :
  os_exists os path_d = true ->
  os_listdir os path_d = Ok (pre ++ n :: post) ->
  (forall m, In m pre -> exists z, os_getsize os (join path_d [m]) = Ok z) ->
  os_getsize os (join path_d [n]) = Raise e ->
  dir_files_keyed_by_size os path_d = Raise e.
Proof.
  intros He Hl Hpre Hn. unfold dir_files_keyed_by_size, assert.
  rewrite He, Hl. cbn [bind].
  now apply bucket_files_fails.
Qed.

Lemma dir_files_keyed_by_size_unmeasurable_witness :
  dir_files_keyed_by_size studio "/cache" = Raise OSError.
Proof.
  apply (dir_files_keyed_by_size_unmeasurable studio "/cache" ["a.bin"]
           "dangling" ["b.bin"] OSError).
  - vm_compute. reflexivity.
  - vm_compute. reflexivity.
  - intros m Hm. simpl in Hm. destruct Hm as [<-|[]].
    eexists. vm_compute. reflexivity.
  - vm_compute. reflexivity.
Defined.

(** *** [ancestor_contains_file]: every depth *)

Section SearchMore.

Variable os : os_state.

(** The loop depends on [depth] only through the test it makes of it. *)
Lemma climb_depth_ext (files_n : list string) (d1 d2 : option Z) (fuel : nat) :
  (forall c, depth_reached d1 c = depth_reached d2 c) ->
  forall (t : string) (count : Z) (latch : bool),
    climb os fuel files_n d1 t count latch = climb os fuel files_n d2 t count latch.
Proof.
  intros Hd. induction fuel as [|fuel IH]; intros t count latch; [reflexivity|].
  rewrite !climb_step, Hd.
  destruct (contains_any os t files_n); [reflexivity|].
  destruct (depth_reached d2 (count + 1)); [reflexivity|].
  destruct (is_root (dirname t)); [destruct latch|]; now rewrite ?IH.
Qed.

(** A run that finds a directory is not changed by a depth that stops no
    sooner. *)
Lemma climb_deeper (files_n : list string) (d1 d2 : option Z) (fuel : nat) :
  (forall c, depth_reached d2 c = true -> depth_reached d1 c = true) ->
  forall (t : string) (count : Z) (latch : bool) (r : search),
    climb os fuel files_n d1 t count latch = Some r ->
    found r <> None ->
    climb os fuel files_n d2 t count latch = Some r.
Proof.
  intros Hd. induction fuel as [|fuel IH]; intros t count latch r H Hf;
    [discriminate H|].
  rewrite climb_step in *.
  destruct (contains_any os t files_n); [exact H|].
  destruct (depth_reached d1 (count + 1)) eqn:E1.
  { injection H as <-. now elim Hf. }
  destruct (depth_reached d2 (count + 1)) eqn:E2.
  { rewrite (Hd _ E2) in E1. discriminate E1. }
  assert (forall latch',
             option_map (looked_into t)
               (climb os fuel files_n d1 (dirname t) (count + 1) latch') = Some r ->
             option_map (looked_into t)
               (climb os fuel files_n d2 (dirname t) (count + 1) latch') = Some r)
    as Hrec.
  { intros latch' H'.
    destruct (climb os fuel files_n d1 (dirname t) (count + 1) latch')
      as [r0|] eqn:E; [|discriminate H'].
    injection H' as <-. simpl in Hf.
    now rewrite (IH _ _ _ r0 E Hf). }
  destruct (is_root (dirname t)).
  - destruct latch; [|now apply Hrec].
    injection H as <-. now elim Hf.
  - now apply Hrec.
Qed.

Lemma preconditions_split (path_p : string) (files_n depth : value) :
  ancestor_preconditions os path_p files_n depth = true ->
  is_none depth || is_int depth = true
  /\ os_exists os path_p = true
  /\ os_isdir os path_p = true
  /\ is_str files_n || is_list files_n = true.
Proof.
  unfold ancestor_preconditions. intros H.
  apply andb_true_iff in H. destruct H as [H H4].
  apply andb_true_iff in H. destruct H as [H H3].
  apply andb_true_iff in H. destruct H as [H1 H2]. auto.
Qed.

Lemma ancestor_raises_without_preconditions (path_p : string)
      (files_n depth : value) :
  ancestor_preconditions os path_p files_n depth = false ->
  ancestor_contains_file os path_p files_n depth = Some (Raise AssertionError).
Proof.
  unfold ancestor_preconditions, ancestor_contains_file,
    ancestor_contains_file_fuel, ancestor_start, assert.
  destruct (is_none depth || is_int depth); [|reflexivity].
  destruct (os_exists os path_p); [|reflexivity].
  destruct (os_isdir os path_p); [|reflexivity].
  destruct (is_str files_n || is_list files_n); [discriminate | reflexivity].
Qed.

(** A run that returns went through the loop with its preconditions met. *)
Lemma ancestor_returned (path_p : string) (files_n depth : value) (r : search) :
  ancestor_contains_file os path_p files_n depth = Some (Ok r) ->
  ancestor_preconditions os path_p files_n depth = true
  /\ climb os (String.length path_p + 2) (marker_names files_n)
       (depth_limit depth) (first_ancestor os path_p) 0 false = Some r.
Proof.
  intros H.
  destruct (ancestor_preconditions os path_p files_n depth) eqn:P.
  - split; [reflexivity|].
    destruct (preconditions_split _ _ _ P) as (Hd & He & Hi & Hf).
    destruct (ancestor_run os path_p files_n depth Hd He Hi Hf)
      as (r' & Hr & Hrun).
    rewrite Hrun in H. injection H as <-. exact Hr.
  - rewrite (ancestor_raises_without_preconditions _ _ _ P) in H.
    discriminate H.
Qed.

End SearchMore.

(** X10: [ancestor_contains_file] ends on every input, whatever the depth:
    it returns when its four assertions hold and raises an assertion error
    when one of them does not; the loop never needs more iterations than
    the start path has characters, plus two. *)
Theorem ancestor_contains_file_total (os : os_state) (path_p : string)
        (files_n depth : value) :
  (ancestor_preconditions os path_p files_n depth = true ->
   exists r, ancestor_contains_file os path_p files_n depth = Some (Ok r))
  /\ (ancestor_preconditions os path_p files_n depth = false ->
      ancestor_contains_file os path_p files_n depth =
      Some (Raise AssertionError))
  /\ forall fuel,
      String.length path_p + 2 <= fuel ->
      ancestor_contains_file_fuel os fuel path_p files_n depth =
      ancestor_contains_file os path_p files_n depth.
Proof.
  split; [|split].
  - intros P. destruct (preconditions_split os _ _ _ P) as (Hd & He & Hi & Hf).
    destruct (ancestor_run os path_p files_n depth Hd He Hi Hf) as (r & _ & Hr).
    now exists r.
  - apply ancestor_raises_without_preconditions.
  - intros fuel. apply ancestor_contains_file_fuel_enough.
Qed.

Lemma ancestor_contains_file_total_witness :
  (exists r, ancestor_contains_file host "/w/p/q" (VStr ".marker") (VInt 2)
             = Some (Ok r))
  /\ ancestor_contains_file host "/missing" (VStr ".marker") VNone =
     Some (Raise AssertionError)
  /\ ancestor_contains_file_fuel host 100 "/w/p/q" (VStr ".marker") VNone =
     ancestor_contains_file host "/w/p/q" (VStr ".marker") VNone.
Proof.
  split; [|split].
  - apply (proj1 (ancestor_contains_file_total host "/w/p/q" (VStr ".marker")
                    (VInt 2))).
    vm_compute. reflexivity.
  - apply (proj1 (proj2 (ancestor_contains_file_total host "/missing"
                           (VStr ".marker") VNone))).
    vm_compute. reflexivity.
  - apply (proj2 (proj2 (ancestor_contains_file_total host "/w/p/q"
                           (VStr ".marker") VNone))).
    simpl. lia.
Defined.

(** X11: a depth of zero is no limit: the run with [depth = 0] is the run
    with [depth = None], on every input. *)
Theorem ancestor_search_depth_zero (os : os_state) (path_p : string)
        (files_n : value) :
  ancestor_contains_file os path_p files_n (VInt 0) =
  ancestor_contains_file os path_p files_n VNone.
Proof.
  unfold ancestor_contains_file, ancestor_contains_file_fuel.
  destruct (ancestor_start_cases os path_p files_n (VInt 0)) as [H0|H0];
    destruct (ancestor_start_cases os path_p files_n VNone) as [H1|H1];
    rewrite H0, H1; try reflexivity.
  - exfalso. unfold ancestor_start, assert in *. simpl in *.
    destruct (os_exists os path_p); [|discriminate H1].
    destruct (os_isdir os path_p); [|discriminate H1].
    destruct (is_str files_n || is_list files_n); discriminate.
  - exfalso. unfold ancestor_start, assert in *. simpl in *.
    destruct (os_exists os path_p); [|discriminate H0].
    destruct (os_isdir os path_p); [|discriminate H0].
    destruct (is_str files_n || is_list files_n); discriminate.
  - f_equal. apply climb_depth_ext. intros c. reflexivity.
Qed.

(** X13: a hit is never lost by searching further: when the run with a
    non-zero [depth = d] returns a directory, the run without a limit, and
    the run with any depth that is zero or at least [d], return the same
    directory after looking into the same directories. *)
Theorem ancestor_search_deeper (os : os_state) (path_p : string)
        (files_n : value) (d : Z) (depth' : value) (r : search) :
  (d <> 0)%Z ->
  depth' = VNone \/ (exists d', depth' = VInt d' /\ (d' = 0 \/ d <= d')%Z) ->
  ancestor_contains_file os path_p files_n (VInt d) = Some (Ok r) ->
  found r <> None ->
  ancestor_contains_file os path_p files_n depth' = Some (Ok r).
Proof.
  intros Hd Hdepth H Hf.
  destruct (ancestor_returned os _ _ _ _ H) as [P Hr].
  destruct (preconditions_split os _ _ _ P) as (_ & He & Hi & Hfl).
  assert (is_none depth' || is_int depth' = true) as Hty
      by (destruct Hdepth as [-> | (d' & -> & _)]; reflexivity).
  destruct (ancestor_run os path_p files_n depth' Hty He Hi Hfl)
    as (r' & Hr' & Hrun).
  rewrite Hrun. do 2 f_equal.
  assert (climb os (String.length path_p + 2) (marker_names files_n)
            (depth_limit depth') (first_ancestor os path_p) 0 false = Some r)
    as Hr''.
  { apply (climb_deeper os _ (depth_limit (VInt d)) (depth_limit depth'));
      [|exact Hr | exact Hf].
    intros c Hc. simpl. unfold depth_reached.
    replace (negb (d =? 0)%Z) with true
      by (symmetry; apply negb_true_iff, Z.eqb_neq, Hd).
    simpl. apply Z.geb_le.
    destruct Hdepth as [-> | (d' & -> & Hd')]; simpl in Hc; [discriminate Hc|].
    apply andb_true_iff in Hc. destruct Hc as [Hnz Hge].
    apply negb_true_iff, Z.eqb_neq in Hnz. apply Z.geb_le in Hge. lia. }
  congruence.
Qed.

Lemma ancestor_search_deeper_witness :
  ancestor_contains_file host "/w/p/q" (VStr ".marker") (VInt 7) =
  Some (Ok {| found := Some "/w"; examined := ["/w/p"; "/w"] |}).
Proof.
  apply (ancestor_search_deeper host "/w/p/q" (VStr ".marker") 2 (VInt 7)).
  - discriminate.
  - right. exists 7%Z. split; [reflexivity | right; lia].
  - vm_compute. reflexivity.
  - discriminate.
Defined.

(** *** [invert_dir_list] *)

Section Invert.

Variable os : os_state.

Lemma name_in_iff (n : string) (l : list string) :
  name_in n l = true <-> In n l.
Proof.
  unfold name_in. rewrite existsb_exists. split.
  - intros (x & Hx & E). apply String.eqb_eq in E. now subst.
  - intros H. exists n. split; [exact H | apply String.eqb_refl].
Qed.

Lemma filter_both {A : Type} (f g : A -> bool) (l : list A) :
  filter (fun x => f x && g x) l = filter g (filter f l).
Proof.
  induction l as [|x l IH]; simpl; [reflexivity|].
  destruct (f x); simpl; [|exact IH].
  destruct (g x); now rewrite IH.
Qed.

Lemma invert_loop_cons (re_match : string -> string -> result bool)
      (parent_d : string) (subdirs_n : list string) (pattern : value)
      (n : string) (rest output : list string) :
  invert_loop os re_match parent_d subdirs_n pattern (n :: rest) output =
  if os_isdir os (join parent_d [n]) then
    if negb (name_in n subdirs_n) then
      matched <- (match pattern_given pattern with
                  | Some p => re_match p n
                  | None => Ok true
                  end) ;;
      if (matched : bool)
      then invert_loop os re_match parent_d subdirs_n pattern rest (output ++ [n])
      else invert_loop os re_match parent_d subdirs_n pattern rest output
    else invert_loop os re_match parent_d subdirs_n pattern rest output
  else invert_loop os re_match parent_d subdirs_n pattern rest output.
Proof. reflexivity. Qed.

(** Without a pattern in force the loop keeps the directories that are not
    excluded, in listing order, and never consults the matcher. *)
Lemma invert_loop_plain (re_match : string -> string -> result bool)
      (parent_d : string) (subdirs_n : list string) (pattern : value)
      (items_n : list string) :
  pattern_given pattern = None ->
  forall output,
    invert_loop os re_match parent_d subdirs_n pattern items_n output =
    Ok (output ++ filter (inverted os parent_d subdirs_n) items_n).
Proof.
  intros Hp. induction items_n as [|n rest IH]; intros output.
  - simpl. now rewrite app_nil_r.
  - rewrite invert_loop_cons. cbn [filter]. unfold inverted at 1.
    destruct (os_isdir os (join parent_d [n])); cbn [andb]; [|apply IH].
    destruct (name_in n subdirs_n); cbn [negb]; [apply IH|].
    rewrite Hp. cbn [bind]. rewrite IH. now rewrite <- app_assoc.
Qed.

(** With a pattern and a matcher that does not raise, the names kept are
    those that the matcher accepts as well. *)
Lemma invert_loop_matched (m : string -> string -> bool)
      (parent_d : string) (subdirs_n : list string) (pattern : value)
      (p : string) (items_n : list string) :
  pattern_given pattern = Some p ->
  forall output,
    invert_loop os (fun p s => Ok (m p s)) parent_d subdirs_n pattern
      items_n output =
    Ok (output
        ++ filter (fun n => inverted os parent_d subdirs_n n && m p n) items_n).
Proof.
  intros Hp. induction items_n as [|n rest IH]; intros output.
  - simpl. now rewrite app_nil_r.
  - rewrite invert_loop_cons. cbn [filter]. unfold inverted at 1.
    destruct (os_isdir os (join parent_d [n])); cbn [andb]; [|apply IH].
    destruct (name_in n subdirs_n); cbn [negb]; [apply IH|].
    rewrite Hp. cbn [bind]. destruct (m p n); rewrite IH; [|reflexivity].
    now rewrite <- app_assoc.
Qed.

Lemma invert_dir_list_unfiltered (re_match : string -> string -> result bool)
      (parent_d : string) (subdirs_n items_n : list string) (pattern : value) :
  pattern = VNone \/ pattern = VStr "" ->
  os_exists os parent_d = true ->
  os_isdir os parent_d = true ->
  os_listdir os parent_d = Ok items_n ->
  invert_dir_list os re_match parent_d (VList subdirs_n) pattern =
  Ok (filter (inverted os parent_d subdirs_n) items_n).
Proof.
  intros Hp He Hi Hl.
  unfold invert_dir_list, assert. rewrite He, Hi, Hl.
  assert (is_none pattern || is_str pattern = true) as ->
      by (destruct Hp as [-> | ->]; reflexivity).
  simpl. rewrite invert_loop_plain; [reflexivity|].
  destruct Hp as [-> | ->]; reflexivity.
Qed.

End Invert.

(** X14: without a pattern ([None] or the empty string),
    [invert_dir_list] returns, in listing order, exactly the entries of
    the parent that are directories and are not in the given list; the
    regular-expression engine is not consulted. *)
Theorem invert_dir_list_plain (os : os_state)
        (re_match : string -> string -> result bool) (parent_d : string)
        (subdirs_n items_n : list string) (pattern : value) :
  pattern = VNone \/ pattern = VStr "" ->
  os_exists os parent_d = true ->
  os_isdir os parent_d = true ->
  os_listdir os parent_d = Ok items_n ->
  invert_dir_list os re_match parent_d (VList subdirs_n) pattern =
    Ok (filter (inverted os parent_d subdirs_n) items_n)
  /\ forall n,
      In n (filter (inverted os parent_d subdirs_n) items_n) <->
      In n items_n
      /\ os_isdir os (join parent_d [n]) = true
      /\ ~ In n subdirs_n.
Proof.
  intros Hp He Hi Hl. split.
  - now apply invert_dir_list_unfiltered.
  - intros n. rewrite filter_In. unfold inverted.
    rewrite andb_true_iff, negb_true_iff.
    rewrite <- (name_in_iff n subdirs_n).
    destruct (name_in n subdirs_n); intuition congruence.
Qed.

Lemma invert_dir_list_plain_witness :
  invert_dir_list studio literal_match "/shots" (VList ["sh010"]) VNone =
  Ok ["sh020"; "old_sh005"; "latest"].
Proof.
  refine (eq_trans (proj1 (invert_dir_list_plain studio literal_match "/shots"
                             ["sh010"]
                             ["sh010"; "notes.txt"; "sh020"; "old_sh005"; "latest"]
                             VNone _ _ _ _)) _).
  - left. reflexivity.
  - vm_compute. reflexivity.
  - vm_compute. reflexivity.
  - vm_compute. reflexivity.
  - vm_compute. reflexivity.
Defined.

(** X15: with a non-empty pattern and a matcher that does not raise,
    [invert_dir_list] returns the names of the pattern-less result that
    the matcher accepts, in the same order. *)
Theorem invert_dir_list_pattern (os : os_state) (m : string -> string -> bool)
        (parent_d : string) (subdirs_n items_n : list string)
        (c : ascii) (p : string) :
  os_exists os parent_d = true ->
  os_isdir os parent_d = true ->
  os_listdir os parent_d = Ok items_n ->
  invert_dir_list os (fun p s => Ok (m p s)) parent_d (VList subdirs_n)
    (VStr (String c p)) =
  Ok (filter (m (String c p)) (filter (inverted os parent_d subdirs_n) items_n)).
Proof.
  intros He Hi Hl. unfold invert_dir_list, assert. rewrite He, Hi, Hl. simpl.
  rewrite (invert_loop_matched os m parent_d subdirs_n _ (String c p));
    [|reflexivity].
  simpl. now rewrite filter_both.
Qed.

Lemma invert_dir_list_pattern_witness :
  invert_dir_list studio literal_match "/shots" (VList ["sh010"]) (VStr "sh") =
  Ok ["sh020"].
Proof.
  refine (eq_trans (invert_dir_list_pattern studio
                      (fun p s => String.prefix p s) "/shots" ["sh010"]
                      ["sh010"; "notes.txt"; "sh020"; "old_sh005"; "latest"]
                      "s"%char "h" _ _ _) _);
    vm_compute; reflexivity.
Defined.

(** X16: inverting twice gives back the part of the list that names
    directories of the parent: applied to its own pattern-less result,
    [invert_dir_list] returns the entries of the parent that are
    directories and are in the list given first. *)
Theorem invert_dir_list_twice (os : os_state)
        (re_match : string -> string -> result bool) (parent_d : string)
        (subdirs_n items_n once : list string) :
  os_listdir os parent_d = Ok items_n ->
  invert_dir_list os re_match parent_d (VList subdirs_n) VNone = Ok once ->
  invert_dir_list os re_match parent_d (VList once) VNone =
  Ok (filter (fun n => os_isdir os (join parent_d [n]) && name_in n subdirs_n)
        items_n).
Proof.
  intros Hl H.
  assert (os_exists os parent_d = true /\ os_isdir os parent_d = true)
    as [He Hi].
  { unfold invert_dir_list, assert in H.
    destruct (os_exists os parent_d); [|discriminate H].
    destruct (os_isdir os parent_d); [|discriminate H]. auto. }
  rewrite (invert_dir_list_unfiltered os re_match parent_d subdirs_n
             items_n VNone (or_introl eq_refl) He Hi Hl) in H.
  injection H as <-.
  rewrite (invert_dir_list_unfiltered os re_match parent_d _
             items_n VNone (or_introl eq_refl) He Hi Hl).
  f_equal. apply filter_ext_in. intros n Hn. unfold inverted at 1.
  destruct (os_isdir os (join parent_d [n])) eqn:Hd; cbn [andb]; [|reflexivity].
  destruct (name_in n subdirs_n) eqn:Hs.
  - apply negb_true_iff. apply not_true_is_false. intros Hc.
    apply name_in_iff, filter_In in Hc. destruct Hc as [_ Hc].
    unfold inverted in Hc. rewrite Hs, andb_false_r in Hc. discriminate Hc.
  - apply negb_false_iff. apply name_in_iff, filter_In.
    split; [exact Hn|]. unfold inverted. now rewrite Hd, Hs.
Qed.

Lemma invert_dir_list_twice_witness :
  invert_dir_list studio literal_match "/shots"
    (VList ["sh020"; "old_sh005"; "latest"]) VNone = Ok ["sh010"].
Proof.
  refine (eq_trans (invert_dir_list_twice studio literal_match "/shots"
                      ["sh010"; "notes.txt"; "gone"]
                      ["sh010"; "notes.txt"; "sh020"; "old_sh005"; "latest"]
                      ["sh020"; "old_sh005"; "latest"] _ _) _);
    vm_compute; reflexivity.
Defined.


(* ====================================================================== *)
(** ** [ancestor_contains_file] on paths written in full *)

Section FullPaths.

Lemma head_part_cons (c : ascii) (t : string) :
  head_part (String c t) =
  match head_part t with
  | EmptyString => if is_sep c then String c EmptyString else EmptyString
  | r => String c r
  end.
Proof. reflexivity. Qed.

Lemma rstrip_cons (c : ascii) (t : string) :
  rstrip (String c t) =
  match rstrip t with
  | EmptyString => if is_sep c then EmptyString else String c EmptyString
  | r => String c r
  end.
Proof. reflexivity. Qed.

Lemma no_sep_head_part (w : string) : no_sep w = true -> head_part w = "".
Proof.
  induction w as [|c w IH]; [reflexivity|].
  intros H. simpl in H. apply andb_true_iff in H. destruct H as [Hc Hw].
  rewrite head_part_cons, (IH Hw). apply negb_true_iff in Hc. now rewrite Hc.
Qed.

(** Up to the last separator: everything before a final name. *)
Lemma head_part_before_name (a w : string) :
  no_sep w = true ->
  head_part (a ++ String sep w) = (a ++ String sep "")%string.
Proof.
  intros Hw. induction a as [|c a IH].
  - change ("" ++ String sep w)%string with (String sep w).
    rewrite head_part_cons, (no_sep_head_part w Hw). reflexivity.
  - change (String c a ++ String sep w)%string
      with (String c (a ++ String sep w)).
    rewrite head_part_cons, IH.
    destruct (a ++ String sep "")%string eqn:E.
    + destruct a; discriminate E.
    + cbn [append]. now rewrite E.
Qed.

Lemma rstrip_app_sep (a : string) : rstrip (a ++ String sep "") = rstrip a.
Proof.
  induction a as [|c a IH]; [reflexivity|].
  change (String c a ++ String sep "")%string with (String c (a ++ String sep "")).
  now rewrite !rstrip_cons, IH.
Qed.

Lemma rstrip_fixed (a : string) : endswith_sep a = false -> rstrip a = a.
Proof.
  induction a as [|c a IH]; [reflexivity|].
  intros H. rewrite rstrip_cons. destruct a as [|c' a'].
  - simpl in *. now rewrite H.
  - rewrite (IH H). reflexivity.
Qed.

Lemma rstrip_trail (trail : string) :
  all_sep trail = true -> forall x, rstrip (x ++ trail) = rstrip x.
Proof.
  induction trail as [|c t IH]; intros H x.
  - now rewrite append_empty_r.
  - simpl in H. apply andb_true_iff in H. destruct H as [Hc Ht].
    rewrite (is_sep_eq c Hc).
    change (String sep t) with (String sep "" ++ t)%string.
    rewrite <- append_assoc, (IH Ht), rstrip_app_sep. reflexivity.
Qed.

Lemma not_all_sep_app (a : string) :
  is_empty a = false -> endswith_sep a = false ->
  all_sep (a ++ String sep "") = false.
Proof.
  induction a as [|c a IH]; [discriminate|].
  intros _ H.
  change (String c a ++ String sep "")%string with (String c (a ++ String sep "")).
  destruct a as [|c' a'].
  - simpl in *. now rewrite H.
  - change (all_sep (String c (String c' a' ++ String sep "")))
      with (is_sep c && all_sep (String c' a' ++ String sep "")).
    rewrite (IH eq_refl H). apply andb_false_r.
Qed.

Lemma is_name_parts (c : string) :
  is_name c = true -> no_sep c = true /\ exists x w, c = String x w.
Proof.
  unfold is_name. intros H.
  apply andb_true_iff in H. destruct H as [H _].
  apply andb_true_iff in H. destruct H as [H _].
  apply andb_true_iff in H. destruct H as [Hn He].
  split; [exact Hn|]. destruct c as [|x w]; [discriminate He | eauto].
Qed.

Lemma is_parent_cases (d : string) :
  is_parent d = true ->
  d = "/" \/ (String.eqb d "/" = false /\ is_empty d = false
              /\ endswith_sep d = false).
Proof.
  unfold is_parent. destruct (String.eqb d "/") eqn:E.
  - left. now apply String.eqb_eq.
  - right. simpl in H. apply andb_true_iff in H. destruct H as [H1 H2].
    apply negb_true_iff in H1, H2. auto.
Qed.

Lemma under_root (name : string) : under "/" name = String sep name.
Proof. reflexivity. Qed.

Lemma under_other (parent name : string) :
  String.eqb parent "/" = false ->
  under parent name = (parent ++ String sep name)%string.
Proof. intros E. unfold under. now rewrite E. Qed.

(** The parent of an entry's path is the directory it was appended to. *)
Lemma dirname_under (parent name : string) :
  is_parent parent = true -> no_sep name = true ->
  dirname (under parent name) = parent.
Proof.
  intros Hp Hn. unfold dirname.
  destruct (is_parent_cases parent Hp) as [-> | (E & He & Hs)].
  - rewrite under_root.
    change (String sep name) with ("" ++ String sep name)%string.
    rewrite (head_part_before_name "" name Hn). reflexivity.
  - rewrite (under_other parent name E), (head_part_before_name parent name Hn).
    unfold strip_head.
    rewrite (not_all_sep_app parent He Hs), append_not_empty.
    cbn [negb andb]. now rewrite rstrip_app_sep, rstrip_fixed.
Qed.

Lemma under_shape (parent : string) (x : ascii) (w : string) :
  exists a, under parent (String x w) = (a ++ String x w)%string
            /\ String.length a = S (if String.eqb parent "/" then 0
                                     else String.length parent).
Proof.
  unfold under. destruct (String.eqb parent "/").
  - exists (String sep ""). split; reflexivity.
  - exists (parent ++ String sep "")%string. split.
    + now rewrite append_assoc.
    + rewrite length_app. simpl. lia.
Qed.

Lemma under_is_parent (parent name : string) :
  is_name name = true -> is_parent (under parent name) = true.
Proof.
  intros H. destruct (is_name_parts name H) as [Hn (x & w & ->)].
  destruct (under_shape parent x w) as (a & -> & _).
  unfold is_parent.
  rewrite append_not_empty, endswith_sep_app, (no_sep_not_trailing x w Hn).
  apply orb_true_r.
Qed.

Lemma under_not_trailing (parent name : string) :
  is_name name = true -> endswith_sep (under parent name) = false.
Proof.
  intros H. destruct (is_name_parts name H) as [Hn (x & w & ->)].
  destruct (under_shape parent x w) as (a & -> & _).
  now rewrite endswith_sep_app, (no_sep_not_trailing x w Hn).
Qed.

(** Joining a name to a directory gives the path of the entry. *)
Lemma join_under (d m : string) :
  is_parent d = true -> no_sep m = true -> join d [m] = under d m.
Proof.
  intros Hd Hm. unfold join. simpl fold_left. unfold join2, under.
  rewrite (no_sep_not_absolute m Hm).
  destruct (is_parent_cases d Hd) as [-> | (E & He & Hs)].
  - reflexivity.
  - now rewrite E, He, Hs.
Qed.

Lemma contains_any_holds (os : os_state) (d : string) (ms : list string) :
  is_parent d = true -> forallb is_name ms = true ->
  contains_any os d ms = holds_marker os ms d.
Proof.
  intros Hd. unfold contains_any, holds_marker.
  induction ms as [|m ms IH]; [reflexivity|].
  intros H. simpl in H. apply andb_true_iff in H. destruct H as [Hm Hms].
  cbn [existsb]. rewrite (IH Hms).
  now rewrite (join_under d m Hd (proj1 (is_name_parts m Hm))).
Qed.

(** Where the search starts for the path of an entry, with or without
    separators after it. *)
Lemma first_ancestor_under (os : os_state) (parent name trail : string) :
  is_parent parent = true -> is_name name = true -> all_sep trail = true ->
  os_isdir os (under parent name) = true ->
  first_ancestor os (under parent name ++ trail) = parent.
Proof.
  intros Hp Hn Ht Hi.
  assert (rstrip (under parent name ++ trail) = under parent name) as Hs.
  { rewrite (rstrip_trail trail Ht).
    apply rstrip_fixed, under_not_trailing, Hn. }
  rewrite first_ancestor_of_directory; rewrite Hs; [|exact Hi].
  apply dirname_under; [exact Hp | exact (proj1 (is_name_parts name Hn))].
Qed.

Lemma names_of_marker_names (files_n : value) (ms : list string) :
  names_of files_n = Some ms ->
  marker_names files_n = ms /\ is_str files_n || is_list files_n = true.
Proof.
  destruct files_n; simpl; intros H; try discriminate H;
    injection H as <-; split; reflexivity.
Qed.


End FullPaths.

Section FullSearch.

Variable os : os_state.
Variable ms : list string.
Hypothesis ms_names : forallb is_name ms = true.

Lemma abs_path_snoc (cs : list string) (c : string) :
  abs_path (cs ++ [c]) = under (abs_path cs) c.
Proof. unfold abs_path. now rewrite fold_left_app. Qed.

Lemma abs_path_is_parent (rcs : list string) :
  forallb is_name rcs = true -> is_parent (abs_path (rev rcs)) = true.
Proof.
  destruct rcs as [|c rest]; [reflexivity|].
  intros H. simpl in H. apply andb_true_iff in H. destruct H as [Hc _].
  simpl rev. rewrite abs_path_snoc. now apply under_is_parent.
Qed.


Lemma under_longer (parent name : string) :
  is_name name = true ->
  String.length parent < String.length (under parent name).
Proof.
  intros H. destruct (is_name_parts name H) as [_ (x & w & ->)].
  destruct (under_shape parent x w) as (a & -> & La).
  rewrite length_app, La. simpl.
  destruct (String.eqb parent "/") eqn:E; [|lia].
  apply String.eqb_eq in E. subst. simpl. lia.
Qed.


Lemma is_root_abs_path (rcs : list string) :
  forallb is_name rcs = true ->
  is_root (abs_path (rev rcs)) = match rcs with [] => true | _ => false end.
Proof.
  destruct rcs as [|c rest]; [reflexivity|].
  intros H. simpl in H. apply andb_true_iff in H. destruct H as [Hc Hr].
  simpl rev. rewrite abs_path_snoc. unfold is_root.
  rewrite (dirname_under _ _ (abs_path_is_parent rest Hr)
             (proj1 (is_name_parts c Hc))).
  apply String.eqb_neq. intros E.
  pose proof (under_longer (abs_path (rev rest)) c Hc) as L.
  rewrite <- E in L. lia.
Qed.

Lemma cut_stop {A : Type} (depth : option Z) (count : Z) (t : A) (l : list A) :
  depth_reached depth (count + 1) = true ->
  cut (levels_left depth count) (t :: l) = [t].
Proof.
  unfold depth_reached, levels_left. destruct depth as [d|]; [|discriminate].
  intros H. apply andb_true_iff in H. destruct H as [H0 H1].
  apply negb_true_iff in H0. rewrite H0. apply Z.geb_le in H1.
  replace (Z.to_nat (Z.max 1 (d - count))) with 1 by lia. reflexivity.
Qed.

Lemma cut_continue {A : Type} (depth : option Z) (count : Z) (t : A)
      (l : list A) :
  depth_reached depth (count + 1) = false ->
  cut (levels_left depth count) (t :: l) =
  t :: cut (levels_left depth (count + 1)) l.
Proof.
  unfold depth_reached, levels_left. destruct depth as [d|]; [|reflexivity].
  destruct (d =? 0)%Z eqn:H0; [reflexivity|].
  simpl. intros H1. rewrite Z.geb_leb in H1. apply Z.leb_gt in H1.
  replace (Z.to_nat (Z.max 1 (d - count)))
    with (S (Z.to_nat (Z.max 1 (d - (count + 1))))) by lia.
  reflexivity.
Qed.

Lemma cut_head {A : Type} (depth : option Z) (count : Z) (t : A) (l : list A) :
  exists l', cut (levels_left depth count) (t :: l) = t :: l'.
Proof.
  destruct (depth_reached depth (count + 1)) eqn:E.
  - exists []. now apply cut_stop.
  - eexists. now apply cut_continue.
Qed.

Lemma cut_nil {A : Type} (k : option nat) : cut k (@nil A) = [].
Proof. destruct k as [n|]; [apply firstn_nil | reflexivity]. Qed.

Lemma nearest_cons (has : string -> bool) (d : string) (rest : list string) :
  nearest has (d :: rest) =
  if has d then {| found := Some d; examined := [d] |}
  else looked_into d (nearest has rest).
Proof. reflexivity. Qed.


(** The loop, started on an absolute path written in full, performs the
    search that is called for over that path and its ancestors, cut to the
    levels that the depth leaves. *)
Lemma climb_full (depth : option Z) (rcs : list string) :
  forall (fuel : nat) (count : Z),
    forallb is_name rcs = true ->
    List.length rcs < fuel ->
    climb os fuel ms depth (abs_path (rev rcs)) count
      (match rcs with [] => true | _ => false end) =
    Some (nearest (holds_marker os ms)
            (cut (levels_left depth count)
               (abs_path (rev rcs) :: ancestors_rev rcs))).
Proof.
  induction rcs as [|c rest IH]; intros fuel count Hn Hf;
    (destruct fuel as [|fuel]; [simpl in Hf; lia|]);
    rewrite climb_step,
      (contains_any_holds os _ ms (abs_path_is_parent _ Hn) ms_names).
  - destruct (holds_marker os ms (abs_path (rev []))) eqn:Hhas.
    + destruct (cut_head depth count (abs_path (rev [])) (ancestors_rev []))
        as [l' ->].
      now rewrite nearest_cons, Hhas.
    + destruct (depth_reached depth (count + 1)) eqn:Hd.
      * rewrite (cut_stop depth count _ _ Hd), nearest_cons, Hhas. reflexivity.
      * rewrite (cut_continue depth count _ _ Hd), nearest_cons, Hhas.
        simpl ancestors_rev. rewrite cut_nil. reflexivity.
  - destruct (holds_marker os ms (abs_path (rev (c :: rest)))) eqn:Hhas.
    + destruct (cut_head depth count (abs_path (rev (c :: rest)))
                  (ancestors_rev (c :: rest))) as [l' ->].
      now rewrite nearest_cons, Hhas.
    + destruct (depth_reached depth (count + 1)) eqn:Hd.
      * rewrite (cut_stop depth count _ _ Hd), nearest_cons, Hhas. reflexivity.
      * rewrite (cut_continue depth count _ _ Hd), nearest_cons, Hhas.
        assert (forallb is_name rest = true /\ is_name c = true) as [Hr Hc].
        { simpl in Hn. apply andb_true_iff in Hn. tauto. }
        assert (dirname (abs_path (rev (c :: rest))) = abs_path (rev rest))
          as ->.
        { simpl rev. rewrite abs_path_snoc.
          apply dirname_under;
            [now apply abs_path_is_parent | exact (proj1 (is_name_parts c Hc))]. }
        rewrite (is_root_abs_path rest Hr).
        simpl in Hf.
        specialize (IH fuel (count + 1)%Z Hr ltac:(lia)).
        cbn [ancestors_rev].
        destruct rest as [|c' rest']; rewrite IH; reflexivity.
Qed.

Lemma levels_left_start (depth : value) :
  levels_left (depth_limit depth) 0 = levels depth.
Proof.
  destruct depth as [|z| |]; try reflexivity.
  simpl. now rewrite Z.sub_0_r.
Qed.

Lemma ancestors_of_snoc (cs : list string) (c : string) :
  ancestors_of (cs ++ [c]) = abs_path cs :: ancestors_of cs.
Proof.
  unfold ancestors_of. rewrite rev_app_distr. simpl.
  now rewrite rev_involutive.
Qed.

(** The run on an absolute path written in full, two levels or more below
    the root. *)
Lemma full_run_deep (cs : list string) (c trail : string)
      (files_n depth : value) :
  cs <> [] ->
  forallb is_name (cs ++ [c]) = true ->
  all_sep trail = true ->
  names_of files_n = Some ms ->
  is_none depth || is_int depth = true ->
  os_exists os (abs_path (cs ++ [c]) ++ trail) = true ->
  os_isdir os (abs_path (cs ++ [c]) ++ trail) = true ->
  os_isdir os (abs_path (cs ++ [c])) = true ->
  ancestor_contains_file os (abs_path (cs ++ [c]) ++ trail) files_n depth =
  Some (Ok (nearest (holds_marker os ms)
              (cut (levels depth) (ancestors_of (cs ++ [c]))))).
Proof.
  intros Hcs Hn Ht Hms Hty He Hi Hi'.
  destruct (names_of_marker_names files_n ms Hms) as [Hmn Hf].
  rewrite forallb_app in Hn. apply andb_true_iff in Hn.
  destruct Hn as [Hncs Hnc]. simpl in Hnc. rewrite andb_true_r in Hnc.
  assert (forallb is_name (rev cs) = true) as Hrev.
  { rewrite forallb_forall in *. intros x Hx. apply Hncs.
    now apply in_rev. }
  destruct (ancestor_run os _ files_n depth Hty He Hi Hf) as (r & Hr & Hrun).
  rewrite Hrun. do 2 f_equal.
  rewrite abs_path_snoc in Hr, Hi'.
  rewrite (first_ancestor_under os (abs_path cs) c trail) in Hr;
    [| rewrite <- (rev_involutive cs); now apply abs_path_is_parent
     | exact Hnc | exact Ht | exact Hi'].
  rewrite Hmn in Hr.
  pose proof (climb_full (depth_limit depth) (rev cs) (S (List.length (rev cs)))
                0%Z Hrev ltac:(lia)) as Hfull.
  rewrite rev_involutive in Hfull.
  assert (match rev cs with [] => true | _ => false end = false) as Hlatch.
  { destruct (rev cs) eqn:E; [|reflexivity].
    exfalso. apply Hcs. rewrite <- (rev_involutive cs), E. reflexivity. }
  rewrite Hlatch, levels_left_start in Hfull.
  rewrite ancestors_of_snoc. unfold ancestors_of.
  set (big := Nat.max (String.length (under (abs_path cs) c ++ trail) + 2)
                (S (List.length (rev cs)))).
  pose proof (climb_more_fuel os ms _ _ _ _ _ _ big Hr ltac:(lia)) as H1.
  pose proof (climb_more_fuel os ms _ _ _ _ _ _ big Hfull ltac:(lia)) as H2.
  congruence.
Qed.


End FullSearch.







(** C8, amended: for every start path that is not a directory,
    [ancestor_contains_file] fails with an assertion error (the
    specification's InvalidArgument): the assertion on the start path
    stops the call before the search, so the outcome is the same when the
    loop is allowed no iteration at all, and nothing is looked into,
    neither the start path nor any of its ancestors. *)
Theorem ancestor_search_rejects_non_directory (os : os_state) (path_p : string)
        (files_n depth : value) :
  os_isdir os path_p = false ->
  ancestor_contains_file os path_p files_n depth = Some (Raise AssertionError)
  /\ forall fuel,
      ancestor_contains_file_fuel os fuel path_p files_n depth =
      Some (Raise AssertionError).
Proof.
  intros Hi.
  assert (ancestor_start os path_p files_n depth = Raise AssertionError) as Hs.
  { unfold ancestor_start, assert. rewrite Hi.
    destruct (is_none depth || is_int depth); [|reflexivity].
    destruct (os_exists os path_p); reflexivity. }
  unfold ancestor_contains_file, ancestor_contains_file_fuel.
  rewrite Hs. split; [reflexivity | intros fuel; reflexivity].
Qed.

Lemma ancestor_search_rejects_non_directory_witness :
  os_exists host "/d/a" = true
  /\ ancestor_contains_file host "/d/a" (VStr ".marker") VNone =
     Some (Raise AssertionError)
  /\ ancestor_contains_file_fuel host 0 "/d/a" (VStr ".marker") VNone =
     Some (Raise AssertionError).
Proof.
  split; [vm_compute; reflexivity|].
  split.
  - apply (proj1 (ancestor_search_rejects_non_directory host "/d/a"
                    (VStr ".marker") VNone eq_refl)).
  - apply (proj2 (ancestor_search_rejects_non_directory host "/d/a"
                    (VStr ".marker") VNone eq_refl)).
Defined.




(** X12: whatever the depth, for an existing directory given by an
    absolute path written in full with two components or more, and for
    marker names that are names of entries, what [ancestor_contains_file]
    does is the search that is called for: it goes through the ancestors
    of the path, nearest first, as far as the depth allows (one ancestor
    for a negative depth, all of them for [None] and 0), stops at the first
    that holds a marker and returns it, and returns [None] when none of
    them holds one. *)
Theorem ancestor_search_nearest (os : os_state) (comps ms : list string)
        (trail : string) (files_n depth : value) :
  2 <= List.length comps ->
  forallb is_name comps = true ->
  all_sep trail = true ->
  names_of files_n = Some ms ->
  forallb is_name ms = true ->
  is_none depth || is_int depth = true ->
  os_exists os (abs_path comps ++ trail) = true ->
  os_isdir os (abs_path comps ++ trail) = true ->
  os_isdir os (abs_path comps) = true ->
  ancestor_contains_file os (abs_path comps ++ trail) files_n depth =
  Some (Ok (nearest (holds_marker os ms)
              (cut (levels depth) (ancestors_of comps)))).
Proof.
  intros Hlen Hn Ht Hms Hnames Hty He Hi Hi'.
  assert (comps <> []) as Hne by (destruct comps; [simpl in Hlen; lia | discriminate]).
  destruct (exists_last Hne) as (cs & c & ->).
  apply full_run_deep; try assumption.
  destruct cs; [simpl in Hlen; lia | discriminate].
Qed.

Lemma ancestor_search_nearest_witness :
  ancestor_contains_file host "/w/p/q" (VList [".asset"; ".marker"]) (VInt 5) =
    Some (Ok {| found := Some "/w"; examined := ["/w/p"; "/w"] |})
  /\ ancestor_contains_file host "/home/u/proj/sub/" (VStr ".marker") (VInt 2) =
     Some (Ok {| found := None; examined := ["/home/u/proj"; "/home/u"] |}).
Proof.
  split.
  - refine (eq_trans (ancestor_search_nearest host ["w"; "p"; "q"]
                        [".asset"; ".marker"] "" (VList [".asset"; ".marker"])
                        (VInt 5) _ _ _ _ _ _ _ _ _) _);
      try (vm_compute; reflexivity). simpl. lia.
  - refine (eq_trans (ancestor_search_nearest host ["home"; "u"; "proj"; "sub"]
                        [".marker"] "/" (VStr ".marker")
                        (VInt 2) _ _ _ _ _ _ _ _ _) _);
      try (vm_compute; reflexivity). simpl. lia.
Defined.
